(** * LPG planner: the ingestion engine of [scripts/add-to-database.py]

    A shallow embedding of [update_database] (and of the part of [main] that
    decides what is committed), followed by the properties of the upsert
    decision: insert / update / ignore, uniqueness of coordinate pairs,
    forward-moving price dates, address stability, counters.

    Conventions of the embedding.
    - A Python [float] is a number, an infinity or NaN; a number is read as
      the rational it denotes (the rounding of decimal text to binary64 is
      outside the embedding).  A JSON integer is a Python [int], which
      [float] rounds to the nearest double.
    - [round(x, 6)] of a number is a float with at most six fractional
      digits, represented by its integer number of millionths; infinities
      and NaN round to themselves.  The columns [latitude] and [longitude]
      of [Stations] only ever receive such values (line 123 of the script),
      NaN being stored as NULL.
    - [sqlite3] binds a [float] or a [str] as it is (NaN as NULL) and
      refuses an [int] outside the 64-bit range with [OverflowError].
    - Python strings are [string]s (bytes of their UTF-8 encoding), compared
      with [String.compare], which orders them as Python orders [str]
      (by code point, which is the order of the UTF-8 bytes).
    - A JSON record has the keys documented at the top of the script:
      [price], [latitude], [longitude] are numbers or strings, [price_date]
      is a string, the two address forms may be present or absent.
    - [strftime] is the one of glibc, which writes a year below 1000
      without leading zeros.  [strptime] reads the decimal digits of
      Unicode 14, the version of CPython 3.11, where its regular expression
      has [\d].
    - An exception is a value [Raise e] of the [result] type. *)

From Stdlib Require Import List String Ascii ZArith QArith Bool Lia Permutation.
From Stdlib Require DecimalString.
Import ListNotations.

Local Open Scope Z_scope.

(** ** Exceptions *)

Inductive exn : Type :=
| KeyError
| ValueError
| IntegrityError
| OverflowError.

Inductive result (A : Type) : Type :=
| Ok (a : A)
| Raise (e : exn).

Arguments Ok {A} a.
Arguments Raise {A} e.

Definition bind {A B : Type} (m : result A) (k : A -> result B) : result B :=
  match m with
  | Ok a => k a
  | Raise e => Raise e
  end.

Notation "x <- m ;; k" := (bind m (fun x => k))
  (at level 61, m at next level, right associativity).

(** ** JSON input records *)

(** A Python [float]. *)
Inductive pyfloat : Type :=
| Finite (q : Q)
| Infinite (negative : bool)
| NaN.

(** A value of a record: a JSON integer, a JSON real (Python's [json] also
    reads [NaN], [Infinity] and [-Infinity]) or a string. *)
Inductive jvalue : Type :=
| JInt (z : Z)
| JFloat (x : pyfloat)
| JStr (s : string).

(** A JSON real that is a number. *)
Definition num (q : Q) : jvalue := JFloat (Finite q).

Record address_dict : Type := mkAddress {
  street : string;
  postal_code : string;
  city : string;
  country : option string
}.

(** One element of [data].  [address_compact] and [address] are [None] when
    the key is absent from the dictionary. *)
Record station : Type := mkStation {
  address_compact : option string;
  address : option address_dict;
  latitude : jvalue;
  longitude : jvalue;
  price : jvalue;
  price_date : string
}.

(** ** The [Stations] table *)

Module Stations.

(** A REAL that a coordinate column can hold besides NULL: a float rounded
    to six decimals, as a number of millionths, or an infinity. *)
Inductive real : Type :=
| Millionths (z : Z)
| Infinity (negative : bool).

(** A row of [Stations]; [None] is NULL.  [fuel_price] keeps the value that
    was bound to the statement, which is the raw [price] of the record (the
    column then holds the REAL it denotes, NULL for NaN). *)
Record row : Type := mkRow {
  id : Z;
  latitude : option real;
  longitude : option real;
  fuel_price : jvalue;
  price_date : string;
  address : string
}.

Definition coordinates (r : row) : option real * option real :=
  (latitude r, longitude r).

End Stations.

(** The database as the cursor sees it: the rows of [Stations] in rowid
    order and the counter that [AUTOINCREMENT] keeps in [sqlite_sequence]. *)
Record database : Type := mkDatabase {
  rows : list Stations.row;
  seq : Z
}.

(** ** Python built-ins used by the script *)

(** [price == ""] *)
Definition is_empty (v : jvalue) : bool :=
  match v with
  | JStr s => String.eqb s ""
  | JInt _ => false
  | JFloat _ => false
  end.

Definition Qltb (x y : Q) : bool := negb (Qle_bool y x).

(** [x < t] for a float [x] and a number [t]. *)
Definition float_lt (x : pyfloat) (t : Q) : bool :=
  match x with
  | Finite q => Qltb q t
  | Infinite negative => negative
  | NaN => false
  end.

(** [float(n)] for an [int] raises [OverflowError] from this magnitude on:
    half-way between the largest double and 2^1024. *)
Definition float_overflow : Z := Z.shiftl 1 1024 - Z.shiftl 1 970.

(** [float(n)] for an [int] below that magnitude: the double nearest to
    [n], ties to even.  A double has 53 significant bits, so the integers
    up to 2^53 are doubles. *)
Definition nearest_double (n : Z) : Z :=
  let a := Z.abs n in
  let e := Z.log2 a - 52 in
  if e <=? 0 then n
  else
    let q := Z.shiftr a e in
    let r := a - Z.shiftl q e in
    let q' :=
      match r ?= Z.shiftl 1 (e - 1) with
      | Lt => q
      | Gt => q + 1
      | Eq => if Z.even q then q else q + 1
      end in
    Z.sgn n * Z.shiftl q' e.

(** What [sqlite3] accepts as a parameter: any [float] or [str], and an
    [int] of the 64-bit range. *)
Definition bindable (v : jvalue) : bool :=
  match v with
  | JInt z => (- Z.shiftl 1 63 <=? z) && (z <? Z.shiftl 1 63)
  | JFloat _ => true
  | JStr _ => true
  end.

(** [round(x, 6)]: the nearest multiple of 10^-6, ties to the even one,
    returned as a number of millionths. *)
Definition round_half_even (q : Q) : Z :=
  let n := Qnum q in
  let d := Zpos (Qden q) in
  let fl := n / d in
  match (2 * (n mod d)) ?= d with
  | Lt => fl
  | Gt => fl + 1
  | Eq => if Z.even fl then fl else fl + 1
  end.

Definition round6 (q : Q) : Z := round_half_even (q * (1000000 # 1)).

(** [round(x, 6)] as [sqlite3] binds it: NaN and the infinities round to
    themselves, and NaN is bound as NULL. *)
Definition rounded (x : pyfloat) : option Stations.real :=
  match x with
  | Finite q => Some (Stations.Millionths (round6 q))
  | Infinite negative => Some (Stations.Infinity negative)
  | NaN => None
  end.

(** The [=] of SQL on a coordinate column: never true of NULL. *)
Definition sql_eq (a b : option Stations.real) : bool :=
  match a, b with
  | Some (Stations.Millionths x), Some (Stations.Millionths y) => x =? y
  | Some (Stations.Infinity m), Some (Stations.Infinity n) => Bool.eqb m n
  | _, _ => false
  end.

(** *** [datetime.strptime(s, "%d/%m/%Y")]

    The format is compiled to the regular expression
    [(?P<d>3[0-1]|[1-2]\d|0[1-9]|[1-9]| [1-9])/(?P<m>1[0-2]|0[1-9]|[1-9])/(?P<Y>\d\d\d\d)],
    which must match the whole string.  The classes in brackets hold ASCII
    digits; [\d] is any decimal digit of Unicode, and [int] reads them
    all. *)

Definition byte (c : ascii) : Z := Z.of_N (N_of_ascii c).

Definition digit (c : ascii) : option Z :=
  let n := byte c in
  if (48 <=? n) && (n <=? 57) then Some (n - 48) else None.

(** The six low bits of a continuation byte of UTF-8. *)
Definition continuation (c : ascii) : option Z :=
  let n := byte c in
  if (128 <=? n) && (n <? 192) then Some (n - 128) else None.

(** The characters of a string, as code points. *)
Fixpoint code_points (l : list ascii) : option (list Z) :=
  match l with
  | [] => Some []
  | c :: l1 =>
      let n := byte c in
      if n <? 128 then option_map (cons n) (code_points l1)
      else if n <? 192 then None
      else if n <? 224 then
        match l1 with
        | c1 :: l2 =>
            match continuation c1, code_points l2 with
            | Some x1, Some cps => Some (((n - 192) * 64 + x1) :: cps)
            | _, _ => None
            end
        | _ => None
        end
      else if n <? 240 then
        match l1 with
        | c1 :: c2 :: l3 =>
            match continuation c1, continuation c2, code_points l3 with
            | Some x1, Some x2, Some cps =>
                Some ((((n - 224) * 64 + x1) * 64 + x2) :: cps)
            | _, _, _ => None
            end
        | _ => None
        end
      else
        match l1 with
        | c1 :: c2 :: c3 :: l4 =>
            match continuation c1, continuation c2, continuation c3,
                  code_points l4 with
            | Some x1, Some x2, Some x3, Some cps =>
                Some (((((n - 240) * 64 + x1) * 64 + x2) * 64 + x3) :: cps)
            | _, _, _, _ => None
            end
        | _ => None
        end
  end.

(** The decimal digits of Unicode 14 (category Nd) come in 66 runs of ten,
    zero to nine: these are the code points of the zeros. *)
Definition decimal_zeros : list Z :=
  [48; 1632; 1776; 1984; 2406; 2534; 2662; 2790;
   2918; 3046; 3174; 3302; 3430; 3558; 3664; 3792;
   3872; 4160; 4240; 6112; 6160; 6470; 6608; 6784;
   6800; 6992; 7088; 7232; 7248; 42528; 43216; 43264;
   43472; 43504; 43600; 44016; 65296; 66720; 68912; 69734;
   69872; 69942; 70096; 70384; 70736; 70864; 71248; 71360;
   71472; 71904; 72016; 72784; 73040; 73120; 92768; 92864;
   93008; 120782; 120792; 120802; 120812; 120822; 123200; 123632;
   125264; 130032].

(** [\d], with the value that [int] gives the digit. *)
Definition decimal_digit (cp : Z) : option Z :=
  match find (fun z => (z <=? cp) && (cp <=? z + 9)) decimal_zeros with
  | Some z => Some (cp - z)
  | None => None
  end.

(** A field that is one character matched by [\d]. *)
Definition unicode_digit (f : list ascii) : option Z :=
  match code_points f with
  | Some [cp] => decimal_digit cp
  | _ => None
  end.

(** A field that is one ASCII digit of the class [[lo-hi]]. *)
Definition ascii_digit (lo hi : Z) (f : list ascii) : option Z :=
  match f with
  | [c] =>
      match digit c with
      | Some n => if (lo <=? n) && (n <=? hi) then Some n else None
      | None => None
      end
  | _ => None
  end.

(** The fields of a string between the ["/"] separators. *)
Fixpoint split_slash (s : string) : list (list ascii) :=
  match s with
  | EmptyString => [[]]
  | String c s' =>
      if Ascii.eqb c "/"%char then [] :: split_slash s'
      else match split_slash s' with
           | [] => [[c]]
           | f :: fs => (c :: f) :: fs
           end
  end.

(** [%d]: [3[0-1]|[1-2]\d|0[1-9]|[1-9]| [1-9]] *)
Definition day_field (f : list ascii) : option Z :=
  match ascii_digit 1 9 f with
  | Some d => Some d
  | None =>
      match f with
      | c :: rest =>
          if Ascii.eqb c "3"%char
          then option_map (Z.add 30) (ascii_digit 0 1 rest)
          else if Ascii.eqb c "1"%char
          then option_map (Z.add 10) (unicode_digit rest)
          else if Ascii.eqb c "2"%char
          then option_map (Z.add 20) (unicode_digit rest)
          else if Ascii.eqb c "0"%char then ascii_digit 1 9 rest
          else if Ascii.eqb c " "%char then ascii_digit 1 9 rest
          else None
      | [] => None
      end
  end.

(** [%m]: [1[0-2]|0[1-9]|[1-9]] *)
Definition month_field (f : list ascii) : option Z :=
  match ascii_digit 1 9 f with
  | Some m => Some m
  | None =>
      match f with
      | c :: rest =>
          if Ascii.eqb c "1"%char
          then option_map (Z.add 10) (ascii_digit 0 2 rest)
          else if Ascii.eqb c "0"%char then ascii_digit 1 9 rest
          else None
      | [] => None
      end
  end.

(** [%Y]: [\d\d\d\d] *)
Definition year_field (f : list ascii) : option Z :=
  match code_points f with
  | Some [a; b; c; d] =>
      match decimal_digit a, decimal_digit b, decimal_digit c, decimal_digit d with
      | Some ya, Some yb, Some yc, Some yd =>
          Some (1000 * ya + 100 * yb + 10 * yc + yd)
      | _, _, _, _ => None
      end
  | _ => None
  end.

Definition is_leap (y : Z) : bool :=
  ((y mod 4 =? 0) && negb (y mod 100 =? 0)) || (y mod 400 =? 0).

Definition days_in_month (y m : Z) : Z :=
  if m =? 2 then (if is_leap y then 29 else 28)
  else if (m =? 4) || (m =? 6) || (m =? 9) || (m =? 11) then 30
  else 31.

(** A calendar date: year, month, day. *)
Record date : Type := mkDate { year : Z; month : Z; day : Z }.

(** The regular expression must match the whole string, and the three
    numbers must form a date that [datetime] accepts (year 1 at least, day
    within the month). *)
Definition strptime (s : string) : result date :=
  match split_slash s with
  | [fd; fm; fy] =>
      match day_field fd, month_field fm, year_field fy with
      | Some d, Some m, Some y =>
          if (1 <=? y) && (d <=? days_in_month y m)
          then Ok (mkDate y m d)
          else Raise ValueError
      | _, _, _ => Raise ValueError
      end
  | _ => Raise ValueError
  end.

(** *** [strftime("%Y-%m-%d")]

    Month and day on two digits, zero-padded.  The year is written by the
    C library: glibc writes the number without padding, so four digits from
    year 1000 on and fewer below. *)

Definition digit_char (n : Z) : ascii :=
  ascii_of_N (Z.to_N (48 + n mod 10)).

Definition pad2 (n : Z) : string :=
  String (digit_char (n / 10)) (String (digit_char n) EmptyString).

Definition pad4 (n : Z) : string :=
  String (digit_char (n / 1000)) (String (digit_char (n / 100)) (pad2 n)).

(** [%Y] *)
Definition year_digits (y : Z) : string :=
  if y <? 10 then String (digit_char y) EmptyString
  else if y <? 100 then pad2 y
  else if y <? 1000 then String (digit_char (y / 100)) (pad2 y)
  else pad4 y.

Definition strftime (d : date) : string :=
  (year_digits (year d) ++ "-" ++ pad2 (month d) ++ "-" ++ pad2 (day d))%string.

(** ** The loop of [update_database] *)

(** What the loop does with one record, i.e. which counter it increments. *)
Inductive outcome : Type :=
| Added
| Updated
| Ignored.

(** The values bound to the SQL statements for one record (lines 105-107
    and 96-102): rounded coordinates, raw price, date as [strftime] writes
    it, flat address. *)
Record observation : Type := mkObservation {
  obs_latitude : option Stations.real;
  obs_longitude : option Stations.real;
  obs_price : jvalue;
  obs_date : string;
  obs_address : string
}.

Definition obs_coordinates (o : observation)
  : option Stations.real * option Stations.real :=
  (obs_latitude o, obs_longitude o).

Section Engine.

(** [float(s)] for a string [s]: [None] when Python raises [ValueError].
    The script does not define it; every statement below holds whatever
    this function is. *)
Variable float_of_string : string -> option pyfloat.

Definition float (v : jvalue) : result pyfloat :=
  match v with
  | JInt z =>
      if Z.abs z <? float_overflow
      then Ok (Finite (inject_Z (nearest_double z)))
      else Raise OverflowError
  | JFloat x => Ok x
  | JStr s =>
      match float_of_string s with
      | Some q => Ok q
      | None => Raise ValueError
      end
  end.

(** Line 90: [price == "" or float(price) < 0.1 or date == ""], with the
    short-circuit evaluation of [or]. *)
Definition skip_entry (s : station) : result bool :=
  if is_empty (price s) then Ok true
  else
    p <- float (price s) ;;
    if float_lt p (1 # 10) then Ok true
    else Ok (String.eqb (price_date s) "").

(** Lines 96-102. *)
Definition resolve_address (s : station) : result string :=
  match address_compact s with
  | Some a => Ok a
  | None =>
      match address s with
      | None => Raise KeyError
      | Some d =>
          let a := (street d ++ ", " ++ postal_code d ++ ", " ++ city d)%string in
          match country d with
          | Some c => Ok (a ++ ", " ++ c)%string
          | None => Ok a
          end
      end
  end.

(** Lines 85-107: [None] when the record is skipped at line 90-92. *)
Definition normalize (s : station) : result (option observation) :=
  skip <- skip_entry s ;;
  if skip then Ok None
  else
    a <- resolve_address s ;;
    la <- float (latitude s) ;;
    lo <- float (longitude s) ;;
    d <- strptime (price_date s) ;;
    Ok (Some (mkObservation (rounded la) (rounded lo) (price s) (strftime d) a)).

(** Lines 110-114: [SELECT ... WHERE latitude=? AND longitude=?] followed
    by [fetchone()]. *)
Definition select_station (cur : database) (la lo : option Stations.real)
  : option Stations.row :=
  find (fun r => sql_eq (Stations.latitude r) la
                 && sql_eq (Stations.longitude r) lo)
       (rows cur).

(** The rowid that [AUTOINCREMENT] gives to the next inserted row. *)
Definition next_id (cur : database) : Z :=
  1 + fold_right Z.max (seq cur) (map Stations.id (rows cur)).

(** The row that [VALUES (?, ?, ?, ?, ?)] of line 121 creates. *)
Definition new_row (i : Z) (o : observation) : Stations.row :=
  Stations.mkRow i (obs_latitude o) (obs_longitude o)
                 (obs_price o) (obs_date o) (obs_address o).

(** Lines 118-124: [INSERT INTO Stations ...]: the parameters are bound,
    then the row is inserted under the constraint
    [UNIQUE(latitude, longitude)] of the schema, which NULL escapes. *)
Definition insert_station (cur : database) (o : observation) : result database :=
  if bindable (obs_price o) then
    if existsb (fun r => sql_eq (Stations.latitude r) (obs_latitude o)
                         && sql_eq (Stations.longitude r) (obs_longitude o))
               (rows cur)
    then Raise IntegrityError
    else
      let i := next_id cur in
      Ok (mkDatabase (rows cur ++ [new_row i o]) i)
  else Raise OverflowError.

(** The [SET fuel_price = ?, price_date = ?] of lines 136-143 on one row. *)
Definition set_price (p : jvalue) (d : string) (r : Stations.row) : Stations.row :=
  Stations.mkRow (Stations.id r) (Stations.latitude r) (Stations.longitude r)
                 p d (Stations.address r).

(** The effect of [UPDATE Stations SET ... WHERE id = ?]. *)
Definition apply_update (cur : database) (p : jvalue) (d : string) (i : Z) : database :=
  mkDatabase
    (map (fun r => if Stations.id r =? i then set_price p d r else r) (rows cur))
    (seq cur).

(** Lines 136-143: the parameters are bound, then the rows are updated. *)
Definition update_station (cur : database) (p : jvalue) (d : string) (i : Z)
  : result database :=
  if bindable p then Ok (apply_update cur p d i)
  else Raise OverflowError.

(** Lines 109-144. *)
Definition upsert (cur : database) (o : observation) : result (database * outcome) :=
  match select_station cur (obs_latitude o) (obs_longitude o) with
  | None =>
      cur' <- insert_station cur o ;;
      Ok (cur', Added)
  | Some row =>
      if (obs_date o <=? Stations.price_date row)%string
      then Ok (cur, Ignored)
      else
        cur' <- update_station cur (obs_price o) (obs_date o) (Stations.id row) ;;
        Ok (cur', Updated)
  end.

(** The body of the [for] loop, lines 84-144. *)
Definition process (cur : database) (s : station) : result (database * outcome) :=
  n <- normalize s ;;
  match n with
  | None => Ok (cur, Ignored)
  | Some o => upsert cur o
  end.

(** [(n_added, n_updated, n_ignored)] *)
Definition counters : Type := (nat * nat * nat)%type.

Definition tally (n : counters) (o : outcome) : counters :=
  let '(n_added, n_updated, n_ignored) := n in
  match o with
  | Added => (S n_added, n_updated, n_ignored)
  | Updated => (n_added, S n_updated, n_ignored)
  | Ignored => (n_added, n_updated, S n_ignored)
  end.

(** Lines 83-144. *)
Fixpoint for_loop (cur : database) (n : counters) (data : list station)
  : result (database * counters) :=
  match data with
  | [] => Ok (cur, n)
  | s :: rest =>
      r <- process cur s ;;
      for_loop (fst r) (tally n (snd r)) rest
  end.

(** Lines 72-149.  The database of the result is the one that
    [db_connection.commit()] makes durable. *)
Definition update_database (db : database) (data : list station)
  : result (database * counters) :=
  for_loop db (0, 0, 0)%nat data.

(** Lines 45-48 of [main], for a store that exists: what is in the store
    afterwards, and the counters when [update_database] returned.  When it
    raised, nothing was committed. *)
Definition main (db : database) (data : list station)
  : database * option counters :=
  match update_database db data with
  | Ok (db', n) => (db', Some n)
  | Raise _ => (db, None)
  end.

(** Successive runs of the script, one per batch. *)
Definition ingest (db : database) (batches : list (list station)) : database :=
  fold_left (fun d b => fst (main d b)) batches db.

End Engine.

(** ** A reading of [float(s)] for plain decimal literals

    Used to run the engine on concrete records: an optional sign, digits,
    and an optional fractional part.  Strings that are not of this shape
    (["abc"], the empty string) are not numbers for Python either. *)

Fixpoint digits_value (acc : Z) (l : list ascii) : option Z :=
  match l with
  | [] => Some acc
  | c :: l' =>
      match digit c with
      | Some d => digits_value (10 * acc + d) l'
      | None => None
      end
  end.

Fixpoint split_dot (l : list ascii) : list ascii * option (list ascii) :=
  match l with
  | [] => ([], None)
  | c :: l' =>
      if Ascii.eqb c "."%char then ([], Some l')
      else let '(i, f) := split_dot l' in (c :: i, f)
  end.

Definition unsigned_literal (l : list ascii) : option Q :=
  let '(i, f) := split_dot l in
  let f := match f with Some f => f | None => [] end in
  match i ++ f with
  | [] => None
  | _ =>
      match digits_value 0 (i ++ f) with
      | Some n => Some (n # Z.to_pos (10 ^ Z.of_nat (List.length f)))
      | None => None
      end
  end.

Definition decimal_literal (s : string) : option Q :=
  match list_ascii_of_string s with
  | c :: l =>
      if Ascii.eqb c "-"%char then option_map Qopp (unsigned_literal l)
      else if Ascii.eqb c "+"%char then unsigned_literal l
      else unsigned_literal (c :: l)
  | [] => None
  end.

(** [float(s)] for the runs below: ["nan"], ["inf"], ["-inf"] and the
    decimal literals. *)
Definition float_literal (s : string) : option pyfloat :=
  if String.eqb s "nan" then Some NaN
  else if String.eqb s "inf" then Some (Infinite false)
  else if String.eqb s "-inf" then Some (Infinite true)
  else option_map Finite (decimal_literal s).

(** ** Vocabulary of the properties *)

(** A coordinate pair, as stored or as bound to the [SELECT]. *)
Definition pair : Type := (option Stations.real * option Stations.real)%type.

(** A pair with a NULL in it: the pair of a record whose latitude or
    longitude is NaN. *)
Definition has_null (k : pair) : bool :=
  match k with
  | (Some _, Some _) => false
  | _ => true
  end.


Definition numbered_rows (db : database) : list Stations.row :=
  filter (fun r => negb (has_null (Stations.coordinates r))) (rows db).

(** The constraints of the schema of [create-database.py]:
    [id INTEGER PRIMARY KEY] and [UNIQUE(latitude, longitude)]. *)
Definition unique_ids (db : database) : Prop :=
  NoDup (map Stations.id (rows db)).

Definition unique_coordinates (db : database) : Prop :=
  NoDup (map Stations.coordinates (rows db)).

(** What [UNIQUE(latitude, longitude)] enforces: NULL is distinct from
    everything for SQL, so only the pairs without NULL are kept apart. *)
Definition sql_unique (db : database) : Prop :=
  NoDup (map Stations.coordinates (numbered_rows db)).

(** The [price_date] stored for a coordinate pair, if a Station has it. *)
Definition stored_date (db : database) (k : pair) : option string :=
  option_map Stations.price_date (select_station db (fst k) (snd k)).

(** Two versions of a row that differ at most in price and price date. *)
Definition same_station (r r' : Stations.row) : Prop :=
  Stations.id r' = Stations.id r /\
  Stations.latitude r' = Stations.latitude r /\
  Stations.longitude r' = Stations.longitude r /\
  Stations.address r' = Stations.address r.

(** The order on stored dates is the order of Python strings on them. *)
Definition date_le (a b : string) : Prop := (a <=? b)%string = true.
Definition date_lt (a b : string) : Prop := (b <=? a)%string = false.

(** The order of the calendar, the dates [strptime] can return, and those
    among them whose year [strftime] writes on four digits. *)
Definition date_compare (d1 d2 : date) : comparison :=
  match year d1 ?= year d2 with
  | Eq => match month d1 ?= month d2 with
          | Eq => day d1 ?= day d2
          | c => c
          end
  | c => c
  end.

Definition calendar_range (d : date) : Prop :=
  1 <= year d <= 9999 /\ 1 <= month d <= 12 /\ 1 <= day d <= 31.


(** The greater of two stored dates, in the order of strings. *)
Definition greater (a b : string) : string :=
  if (a <=? b)%string then b else a.

(** The greatest date of a non-empty list, in the order of strings; [None]
    for the empty list. *)
Definition greatest (l : list string) : option string :=
  match l with
  | [] => None
  | d :: l' => Some (fold_left greater l' d)
  end.

(** What [upsert] does, as a relation between the database before and
    after. *)
Inductive upsert_spec (cur : database) (o : observation)
  : database -> outcome -> Prop :=
| upsert_insert :
    select_station cur (obs_latitude o) (obs_longitude o) = None ->
    bindable (obs_price o) = true ->
    upsert_spec cur o
      (mkDatabase (rows cur ++ [new_row (next_id cur) o]) (next_id cur)) Added
| upsert_update (r : Stations.row) :
    select_station cur (obs_latitude o) (obs_longitude o) = Some r ->
    date_lt (Stations.price_date r) (obs_date o) ->
    bindable (obs_price o) = true ->
    upsert_spec cur o
      (apply_update cur (obs_price o) (obs_date o) (Stations.id r)) Updated
| upsert_ignore (r : Stations.row) :
    select_station cur (obs_latitude o) (obs_longitude o) = Some r ->
    date_le (obs_date o) (Stations.price_date r) ->
    upsert_spec cur o cur Ignored.

(** Equality of coordinate pairs, as the [WHERE] clause tests it. *)
Definition same_coordinates (k k' : pair) : bool :=
  sql_eq (fst k) (fst k') && sql_eq (snd k) (snd k').

(** [db'] has the rows of [db] in the same positions, each related to its
    former version by [R], followed by the rows inserted since. *)
Definition grows (R : Stations.row -> Stations.row -> Prop) (db db' : database) : Prop :=
  exists olds news,
    rows db' = olds ++ news /\ Forall2 R (rows db) olds.

(** A later version of a Station whose price date is not smaller, as a
    string, than it was. *)
Definition moved_forward (r r' : Stations.row) : Prop :=
  same_station r r' /\ date_le (Stations.price_date r) (Stations.price_date r').

(** [chain start l final]: starting from the stored date [start] (if any),
    each date of [l] is strictly greater, as a string, than the one before
    it, and [final]
    is the last of them ([start] itself when [l] is empty). *)
Inductive chain : option string -> list string -> option string -> Prop :=
| chain_nil (start : option string) : chain start [] start
| chain_first (d : string) (l : list string) (final : option string) :
    chain (Some d) l final -> chain None (d :: l) final
| chain_next (d0 d : string) (l : list string) (final : option string) :
    date_lt d0 d -> chain (Some d) l final -> chain (Some d0) (d :: l) final.

(** The effect of one observation on the stored dates, seen as a function
    from coordinate pairs to dates: the date of its pair becomes the
    greater, as a string, of the stored one and its own. *)
Definition merge_date (v : pair -> option string) (o : observation)
  : pair -> option string :=
  fun k =>
    if same_coordinates k (obs_coordinates o)
    then Some (match v (obs_coordinates o) with
               | Some old => greater old (obs_date o)
               | None => obs_date o
               end)
    else v k.

(** The same for a raw record: nothing when it is not normalized. *)
Definition merge_record (float_of_string : string -> option pyfloat)
    (v : pair -> option string) (s : station) : pair -> option string :=
  match normalize float_of_string s with
  | Ok (Some o) => merge_date v o
  | _ => v
  end.

(** A stored date for the pair of [o] that is not before the date of [o]. *)
Definition covered (db : database) (o : observation) : Prop :=
  exists d, stored_date db (obs_coordinates o) = Some d /\ date_le (obs_date o) d.

(** The normalized dates of the records of [data] with coordinates [k] that
    the loop, started on [cur], accepts: those it inserts or applies as an
    update, in the order it meets them. *)
Fixpoint accepted_dates (float_of_string : string -> option pyfloat)
    (k : pair) (cur : database) (data : list station) : list string :=
  match data with
  | [] => []
  | s :: rest =>
      match normalize float_of_string s, process float_of_string cur s with
      | Ok (Some o), Ok (cur', Added) | Ok (Some o), Ok (cur', Updated) =>
          if same_coordinates k (obs_coordinates o)
          then obs_date o :: accepted_dates float_of_string k cur' rest
          else accepted_dates float_of_string k cur' rest
      | _, Ok (cur', _) => accepted_dates float_of_string k cur' rest
      | _, Raise _ => []
      end
  end.

(** The same over successive runs; a run that raises commits nothing and
    accepts nothing. *)
Fixpoint accepted_in_runs (float_of_string : string -> option pyfloat)
    (k : pair) (db : database) (batches : list (list station)) : list string :=
  match batches with
  | [] => []
  | b :: bs =>
      match update_database float_of_string db b with
      | Ok (db', _) =>
          accepted_dates float_of_string k db b
          ++ accepted_in_runs float_of_string k db' bs
      | Raise _ => accepted_in_runs float_of_string k db bs
      end
  end.




(** A record that the loop can read: lines 85-107 raise nothing on it. *)
Definition readable (float_of_string : string -> option pyfloat)
    (s : station) : Prop :=
  exists x, normalize float_of_string s = Ok x.

(** The records of a batch that reach the lookup have numbers as
    coordinates: none is NaN. *)
Definition no_nan (float_of_string : string -> option pyfloat)
    (data : list station) : Prop :=
  forall s o, In s data -> normalize float_of_string s = Ok (Some o) ->
              has_null (obs_coordinates o) = false.

(** ** Sample records *)

Definition millionths (z : Z) : option Stations.real :=
  Some (Stations.Millionths z).

Definition empty_store : database := mkDatabase [] 0.

Definition station_1 : station :=
  mkStation None (Some (mkAddress "1 rue A" "01234" "Laville" None))
            (num (451 # 10)) (num (82 # 10)) (num (9 # 10)) "01/01/2024".

Definition station_2 : station :=
  mkStation (Some "Main St, 10"%string) None
            (num (451 # 10)) (num (82 # 10)) (num (11 # 10)) "02/01/2024".

Definition station_3 : station :=
  mkStation None (Some (mkAddress "2 rue B" "56789" "Autreville" (Some "France"%string)))
            (JStr "46.25") (JStr "-7.5") (JStr "0.95") "15/03/2024".

(** A store holding the Station of [station_1], and the same after the
    price update of [station_2]. *)
Definition row_1 : Stations.row :=
  Stations.mkRow 1 (millionths 45100000) (millionths (8200000)) (num (9 # 10)) "2024-01-01"
                 "1 rue A, 01234, Laville".

Definition store_1 : database := mkDatabase [row_1] 1.

Definition store_2 : database :=
  mkDatabase [Stations.mkRow 1 (millionths 45100000) (millionths (8200000)) (num (11 # 10)) "2024-01-02"
                             "1 rue A, 01234, Laville"] 1.

(** [store_1] after the insertion of [station_3]. *)
Definition row_3 : Stations.row :=
  Stations.mkRow 2 (millionths 46250000) (millionths (-7500000)) (JStr "0.95") "2024-03-15"
                 "2 rue B, 56789, Autreville, France".

Definition store_3 : database := mkDatabase [row_1; row_3] 2.

Definition observation_2 : observation :=
  mkObservation (millionths 45100000) (millionths (8200000)) (num (11 # 10)) "2024-01-02" "Main St, 10".

(** A price below the floor, with a date that is not a date. *)
Definition low_price_station : station :=
  mkStation (Some "Main St, 10"%string) None
            (num (451 # 10)) (num (82 # 10)) (num (5 # 100)) "yesterday".

(** A price that is not a number, with an empty date. *)
Definition bad_price_station : station :=
  mkStation (Some "Main St, 10"%string) None
            (num (451 # 10)) (num (82 # 10)) (JStr "abc") "".

(** A realistic price with a date in ISO form instead of dd/mm/yyyy. *)
Definition bad_date_station : station :=
  mkStation (Some "Main St, 10"%string) None
            (num (451 # 10)) (num (82 # 10)) (num (9 # 10)) "2024-01-01".

(** The coordinates of [station_1] with a date in year 999, which is
    before the date [store_1] holds. *)
Definition ancient_station : station :=
  mkStation (Some "Main St, 10"%string) None
            (num (451 # 10)) (num (82 # 10)) (num (1 # 1)) "31/12/0999".

Definition ancient_row : Stations.row :=
  Stations.mkRow 1 (millionths 45100000) (millionths 8200000) (num (1 # 1))
                 "999-12-31" "1 rue A, 01234, Laville".

(** A latitude that is not a number: the string ["nan"], which [float]
    accepts. *)
Definition nan_station : station :=
  mkStation (Some "Main St, 10"%string) None
            (JStr "nan") (num (2 # 1)) (num (9 # 10)) "01/01/2024".

Definition nan_row (i : Z) : Stations.row :=
  Stations.mkRow i None (millionths 2000000) (num (9 # 10)) "2024-01-01"
                 "Main St, 10".

(** A price that is a JSON integer outside the 64-bit range, 10^19, at
    the coordinates of [station_1], a day before [station_2]. *)
Definition big_price_station : station :=
  mkStation (Some "Main St, 10"%string) None
            (num (451 # 10)) (num (82 # 10)) (JInt 10000000000000000000)
            "01/01/2024".

(** A string given by the bytes of its UTF-8 encoding. *)
Definition utf8 (l : list Z) : string :=
  string_of_list_ascii (map (fun n => ascii_of_N (Z.to_N n)) l).

(** 2024 in Arabic-Indic digits (U+0662 U+0660 U+0662 U+0664) and in
    mathematical bold digits (U+1D7D0 U+1D7CE U+1D7D0 U+1D7D2); the
    Arabic-Indic digits 0, 1, 2 and the fullwidth digit 9 (U+FF19). *)
Definition arabic_2024 : string :=
  utf8 [217; 162; 217; 160; 217; 162; 217; 164].

Definition bold_2024 : string :=
  utf8 [240; 157; 159; 144; 240; 157; 159; 142;
        240; 157; 159; 144; 240; 157; 159; 146].

Definition arabic_0 : string := utf8 [217; 160].
Definition arabic_1 : string := utf8 [217; 161].
Definition arabic_2 : string := utf8 [217; 162].
Definition fullwidth_9 : string := utf8 [239; 188; 153].

(** Both forms of address, at coordinates of its own. *)
Definition station_4 : station :=
  mkStation (Some "Main St, 10"%string)
            (Some (mkAddress "9 rue Z" "00000" "Ailleurs" None))
            (num (10 # 1)) (num (20 # 1)) (num (1 # 1)) "05/05/2024".

Definition row_4 (i : Z) : Stations.row :=
  Stations.mkRow i (millionths 10000000) (millionths 20000000) (num (1 # 1))
                 "2024-05-05" "Main St, 10".

(** ** The two scripts and the store on disk

    Both scripts resolve the store with the same call,
    [platformdirs.user_data_dir("lpg_planner", appauthor=False,
    roaming=True)] joined with ["stations.db"], so they see the same
    directory and the same file.  What follows embeds the rest of
    [add-to-database.py] ([main], [open_database], [load_json]) and the
    [main] of [create-database.py] over the state of that directory. *)

(** A row of [Distances] (lines 40-47 of [create-database.py]). *)
Record distance_row : Type := mkDistance {
  from_id : Z;
  to_id : Z;
  distance : Q
}.

(** The content of [stations.db]: each table exists or not.  The file is
    taken to be a database that SQLite can read. *)
Record sqlite_file : Type := mkFile {
  stations_table : option database;
  distances_table : option (list distance_row)
}.

(** What is at the path [db_dir / "stations.db"]. *)
Inductive db_path : Type :=
| NoFile
| IsDirectory
| IsFile (f : sqlite_file).

(** What is at the path [db_dir]: nothing, something that is not a
    directory, or a directory (of which only [stations.db] matters). *)
Inductive db_dir : Type :=
| NoEntry
| NotADirectory
| IsDir (p : db_path).

(** The exceptions that end a script. *)
Inductive script_exn : Type :=
| FileExistsError
| OperationalError
| FileNotFoundError
| JSONDecodeError
| Uncaught (e : exn).

Inductive script_result (A : Type) : Type :=
| Done (a : A)
| Failed (e : script_exn).

Arguments Done {A} a.
Arguments Failed {A} e.

(** [str(n)] for a counter. *)
Definition str (n : nat) : string :=
  DecimalString.NilZero.string_of_uint (Nat.to_uint n).

Module CreateDatabase.

(** Line 18: [db_dir.mkdir(parents=True, exist_ok=True)]. *)
Definition mkdir (d : db_dir) : script_result db_path :=
  match d with
  | NoEntry => Done NoFile
  | NotADirectory => Failed FileExistsError
  | IsDir p => Done p
  end.

(** Line 21: [sqlite3.connect(db_dir.joinpath("stations.db"))]; a file that
    does not exist yet is a database without tables. *)
Definition connect (p : db_path) : script_result sqlite_file :=
  match p with
  | NoFile => Done (mkFile None None)
  | IsDirectory => Failed OperationalError
  | IsFile f => Done f
  end.

(** Lines 25-49: the two [CREATE TABLE IF NOT EXISTS]. *)
Definition create_tables (f : sqlite_file) : sqlite_file :=
  mkFile
    (match stations_table f with
     | Some t => Some t
     | None => Some (mkDatabase [] 0)
     end)
    (match distances_table f with
     | Some t => Some t
     | None => Some []
     end).

(** Lines 8-52: the directory afterwards, and the exception if one ended
    the script. *)
Definition main (d : db_dir) : db_dir * option script_exn :=
  match mkdir d with
  | Failed e => (d, Some e)
  | Done p =>
      match connect p with
      | Failed e => (IsDir p, Some e)
      | Done f => (IsDir (IsFile (create_tables f)), None)
      end
  end.

End CreateDatabase.

Module AddToDatabase.

(** The JSON file named on the command line. *)
Inductive json_file : Type :=
| NoJson
| Json (text : string).

(** Lines 62-69: [None] unless [stations.db] exists and is a file. *)
Definition open_database (d : db_dir) : option sqlite_file :=
  match d with
  | IsDir (IsFile f) => Some f
  | _ => None
  end.

(** Lines 56-59.  [json_load] stands for [json.load] followed by the reading
    of the list as records: [None] when the text is not JSON. *)
Definition load_json (json_load : string -> option (list station))
    (j : json_file) : script_result (list station) :=
  match j with
  | NoJson => Failed FileNotFoundError
  | Json text =>
      match json_load text with
      | Some data => Done data
      | None => Failed JSONDecodeError
      end
  end.

(** The loop of [update_database] on a file without the table [Stations]:
    the [SELECT] of line 110 raises for the first record that reaches it. *)
Fixpoint for_loop_without_table (float_of_string : string -> option pyfloat)
    (n_ignored : nat) (data : list station) : script_result nat :=
  match data with
  | [] => Done n_ignored
  | s :: rest =>
      match normalize float_of_string s with
      | Raise e => Failed (Uncaught e)
      | Ok None => for_loop_without_table float_of_string (S n_ignored) rest
      | Ok (Some _) => Failed OperationalError
      end
  end.

(** [update_database(db_connection, data)] for a connection to the file
    [f]: the file as committed, and the counters. *)
Definition update_database_in (float_of_string : string -> option pyfloat)
    (f : sqlite_file) (data : list station)
  : script_result (sqlite_file * counters) :=
  match stations_table f with
  | Some db =>
      match update_database float_of_string db data with
      | Ok (db', n) => Done (mkFile (Some db') (distances_table f), n)
      | Raise e => Failed (Uncaught e)
      end
  | None =>
      match for_loop_without_table float_of_string 0 data with
      | Done i => Done (f, (0, 0, i)%nat)
      | Failed e => Failed e
      end
  end.

(** The line printed at lines 51-53. *)
Definition feedback (entries : nat) (n : counters) : string :=
  let '(n_added, n_updated, n_ignored) := n in
  ("Database updated from " ++ str entries ++ " entries ("
   ++ str n_added ++ " added, " ++ str n_updated ++ " updated, "
   ++ str n_ignored ++ " skipped).")%string.

Definition cannot_find : string :=
  "Cannot find the database. Have you run 'create-database.py'?".

(** Lines 32-53, once the command line is parsed: the directory afterwards
    and the line printed, or the exception that ended the script. *)
Definition main (float_of_string : string -> option pyfloat)
    (json_load : string -> option (list station))
    (d : db_dir) (j : json_file) : db_dir * script_result string :=
  match open_database d with
  | None => (d, Done cannot_find)
  | Some f =>
      match load_json json_load j with
      | Failed e => (d, Failed e)
      | Done data =>
          match update_database_in float_of_string f data with
          | Failed e => (d, Failed e)
          | Done (f', n) =>
              (IsDir (IsFile f'), Done (feedback (List.length data) n))
          end
      end
  end.

End AddToDatabase.

(** ** Vocabulary of the further properties *)

(** The counters of two runs, added. *)
Definition add_counters (n m : counters) : counters :=
  let '(a, u, i) := n in
  let '(b, v, j) := m in
  (a + b, u + v, i + j)%nat.

(** The normalized dates of the records of [data] that are not skipped and have
    the coordinates [k], in the order of the batch. *)
Fixpoint dates_for (float_of_string : string -> option pyfloat)
    (k : pair) (data : list station) : list string :=
  match data with
  | [] => []
  | s :: rest =>
      match normalize float_of_string s with
      | Ok (Some o) =>
          if same_coordinates k (obs_coordinates o)
          then obs_date o :: dates_for float_of_string k rest
          else dates_for float_of_string k rest
      | _ => dates_for float_of_string k rest
      end
  end.

(** The stored date as a list: empty when the pair has no Station. *)
Definition stored_dates (db : database) (k : pair) : list string :=
  match stored_date db k with
  | Some d => [d]
  | None => []
  end.

(** A date as [strftime] writes it for a day that exists. *)
Definition strftime_date (s : string) : Prop :=
  exists d,
    calendar_range d /\ day d <= days_in_month (year d) (month d) /\
    s = strftime d.

(** The row [r] carries the coordinates, the price and the date of the
    record [s]. *)
Definition written_by (float_of_string : string -> option pyfloat)
    (s : station) (r : Stations.row) : Prop :=
  exists o,
    normalize float_of_string s = Ok (Some o) /\
    Stations.coordinates r = obs_coordinates o /\
    Stations.fuel_price r = obs_price o /\
    Stations.price_date r = obs_date o.

(** More sample values: the observations read from [station_1] and
    [station_3], [store_1] after [station_2] and [station_3], and a data
    directory holding [store_1]. *)
Definition observation_1 : observation :=
  mkObservation (millionths 45100000) (millionths (8200000)) (num (9 # 10)) "2024-01-01"
                "1 rue A, 01234, Laville".

Definition observation_3 : observation :=
  mkObservation (millionths 46250000) (millionths (-7500000)) (JStr "0.95") "2024-03-15"
                "2 rue B, 56789, Autreville, France".

Definition row_2 : Stations.row :=
  Stations.mkRow 1 (millionths 45100000) (millionths (8200000)) (num (11 # 10)) "2024-01-02"
                 "1 rue A, 01234, Laville".

Definition store_4 : database := mkDatabase [row_2; row_3] 2.

Definition dir_1 : db_dir := IsDir (IsFile (mkFile (Some store_1) (Some []))).

Definition dir_4 : db_dir := IsDir (IsFile (mkFile (Some store_4) (Some []))).

(** A reading of [json.load] for the runs below: three known texts. *)
Definition sample_json_load (text : string) : option (list station) :=
  if String.eqb text "[station_2, station_3]" then Some [station_2; station_3]
  else if String.eqb text "[]" then Some []
  else if String.eqb text "[low_price_station]" then Some [low_price_station]
  else None.

(** * Properties *)

(** ** Sanity checks of the built-ins *)

Example strptime_iso : strptime "01/01/2024" = Ok (mkDate 2024 1 1).
Proof. reflexivity. Qed.

Example strptime_short_fields : strptime "1/2/2024" = Ok (mkDate 2024 2 1).
Proof. reflexivity. Qed.

Example strptime_not_a_day : strptime "29/02/2023" = Raise ValueError.
Proof. reflexivity. Qed.

Example strptime_other_format : strptime "2024-01-01" = Raise ValueError.
Proof. reflexivity. Qed.

(** Digits of other scripts are read where the format has [\d]: in the
    year, and after a first day digit 1 or 2. *)
Example strptime_unicode_digits :
  strptime ("01/01/" ++ arabic_2024) = Ok (mkDate 2024 1 1) /\
  strptime ("01/01/" ++ bold_2024) = Ok (mkDate 2024 1 1) /\
  strptime ("1" ++ arabic_2 ++ "/01/2024") = Ok (mkDate 2024 1 12) /\
  strptime ("2" ++ fullwidth_9 ++ "/01/2024") = Ok (mkDate 2024 1 29) /\
  strptime (arabic_1 ++ arabic_2 ++ "/01/2024") = Raise ValueError /\
  strptime (arabic_2 ++ "/01/2024") = Raise ValueError /\
  strptime ("3" ++ arabic_0 ++ "/01/2024") = Raise ValueError /\
  strptime ("0" ++ arabic_1 ++ "/01/2024") = Raise ValueError /\
  strptime ("01/" ++ arabic_0 ++ arabic_1 ++ "/2024") = Raise ValueError /\
  strptime ("01/1" ++ arabic_0 ++ "/2024") = Raise ValueError.
Proof. vm_compute. repeat split. Qed.

Example strptime_refusals :
  strptime " 5/01/2024" = Ok (mkDate 2024 1 5) /\
  strptime "29/02/2000" = Ok (mkDate 2000 2 29) /\
  strptime "05 /01/2024" = Raise ValueError /\
  strptime " 01/01/2024" = Raise ValueError /\
  strptime "01/01/2024 " = Raise ValueError /\
  strptime "01/01/0000" = Raise ValueError /\
  strptime "29/02/1900" = Raise ValueError /\
  strptime "01/01/20245" = Raise ValueError /\
  strptime "01/01/2024/" = Raise ValueError /\
  strptime "10/10/999" = Raise ValueError /\
  strptime "01/01/+202" = Raise ValueError /\
  strptime "31/12/2024/" = Raise ValueError /\
  strptime "32/01/2024" = Raise ValueError /\
  strptime "00/01/2024" = Raise ValueError /\
  strptime "01/13/2024" = Raise ValueError /\
  strptime "01/00/2024" = Raise ValueError /\
  strptime "" = Raise ValueError.
Proof. vm_compute. repeat split. Qed.

Example strftime_short_years :
  strftime (mkDate 5 1 2) = "5-01-02"%string /\
  strftime (mkDate 45 1 2) = "45-01-02"%string /\
  strftime (mkDate 999 12 31) = "999-12-31"%string /\
  strftime (mkDate 1000 1 1) = "1000-01-01"%string /\
  strftime (mkDate 9999 12 31) = "9999-12-31"%string.
Proof. vm_compute. repeat split. Qed.

Example strftime_pads : strftime (mkDate 2024 1 1) = "2024-01-01"%string.
Proof. reflexivity. Qed.

Example strftime_year_999 :
  strptime "31/12/0999" = Ok (mkDate 999 12 31) /\
  strftime (mkDate 999 12 31) = "999-12-31"%string /\
  ("2024-01-01" <=? "999-12-31")%string = true.
Proof. repeat split; reflexivity. Qed.

Example round6_samples :
  round6 (45100001 # 1000000) = 45100001 /\
  round6 (451000004 # 10000000) = 45100000 /\
  round6 (78125 # 10000000) = 7812 /\
  round6 (- (15 # 10000000)) = -2.
Proof. vm_compute. repeat split. Qed.

Example decimal_literal_samples :
  decimal_literal "46.25" = Some (4625 # 100) /\
  decimal_literal "-7.5" = Some (-75 # 10)%Q /\
  decimal_literal "abc" = None /\
  decimal_literal "" = None /\
  float_literal "nan" = Some NaN.
Proof. vm_compute. repeat split. Qed.

(** ** The order of Python strings *)

Lemma ascii_compare_refl (a : ascii) : Ascii.compare a a = Eq.
Proof. unfold Ascii.compare. apply N.compare_refl. Qed.

Lemma string_compare_refl (s : string) : String.compare s s = Eq.
Proof.
  induction s as [|c s IH]; simpl; [reflexivity|].
  now rewrite ascii_compare_refl.
Qed.

Lemma string_compare_lt_trans (a b c : string) :
  String.compare a b = Lt -> String.compare b c = Lt -> String.compare a c = Lt.
Proof.
  revert b c.
  induction a as [|x a IH]; intros [|y b] [|z c]; simpl; try congruence.
  unfold Ascii.compare.
  destruct (N.compare_spec (N_of_ascii x) (N_of_ascii y)) as [Exy|Lxy|Gxy];
    try discriminate;
    destruct (N.compare_spec (N_of_ascii y) (N_of_ascii z)) as [Eyz|Lyz|Gyz];
    try discriminate; intros Hab Hbc.
  - rewrite Exy, Eyz, N.compare_refl. eauto.
  - rewrite Exy. now apply N.compare_lt_iff in Lyz as ->.
  - rewrite <- Eyz. now apply N.compare_lt_iff in Lxy as ->.
  - assert (H : (N_of_ascii x < N_of_ascii z)%N) by lia.
    now apply N.compare_lt_iff in H as ->.
Qed.

Lemma date_le_refl (a : string) : date_le a a.
Proof. unfold date_le, String.leb. now rewrite string_compare_refl. Qed.

Lemma date_le_cases (a b : string) :
  date_le a b <-> a = b \/ String.compare a b = Lt.
Proof.
  unfold date_le, String.leb.
  destruct (String.compare a b) eqn:E; split; intros H; auto; try discriminate.
  - left. now apply String.compare_eq_iff.
  - destruct H as [->|H]; [now rewrite string_compare_refl in E | discriminate].
Qed.

Lemma date_le_trans (a b c : string) : date_le a b -> date_le b c -> date_le a c.
Proof.
  rewrite !date_le_cases.
  intros [->|Hab] [->|Hbc]; auto.
  right. eapply string_compare_lt_trans; eassumption.
Qed.

Lemma date_le_antisym (a b : string) : date_le a b -> date_le b a -> a = b.
Proof. apply String.leb_antisym. Qed.

Lemma date_lt_le (a b : string) : date_lt a b -> date_le a b.
Proof.
  unfold date_lt, date_le. intros H.
  destruct (String.leb_total a b) as [H'|H']; [assumption | congruence].
Qed.

Lemma date_lt_neq (a b : string) : date_lt a b -> a <> b.
Proof.
  unfold date_lt. intros H ->.
  pose proof (date_le_refl b) as H'. unfold date_le in H'. congruence.
Qed.

Lemma not_date_le (a b : string) : (a <=? b)%string = false -> date_le b a.
Proof. intros H. apply date_lt_le. exact H. Qed.

Lemma greater_upper_l (a b : string) : date_le a (greater a b).
Proof.
  unfold greater. destruct (a <=? b)%string eqn:E; [exact E | apply date_le_refl].
Qed.

Lemma greater_upper_r (a b : string) : date_le b (greater a b).
Proof.
  unfold greater. destruct (a <=? b)%string eqn:E;
    [apply date_le_refl | now apply not_date_le].
Qed.

Lemma greater_least (a b c : string) :
  date_le a c -> date_le b c -> date_le (greater a b) c.
Proof. unfold greater. now destruct (a <=? b)%string. Qed.

Lemma greater_comm (a b : string) : greater a b = greater b a.
Proof.
  apply date_le_antisym; apply greater_least;
    auto using greater_upper_l, greater_upper_r.
Qed.


Lemma greater_absorb (a b : string) : date_le a b -> greater a b = b.
Proof. unfold greater, date_le. now intros ->. Qed.

Lemma greater_idem (a : string) : greater a a = a.
Proof. apply greater_absorb, date_le_refl. Qed.

(** ** From year 1000 on, stored dates sort as the calendar does *)

Lemma digit_range (c : ascii) (n : Z) : digit c = Some n -> 0 <= n <= 9.
Proof.
  unfold digit. cbv zeta.
  destruct (Z.leb_spec 48 (byte c)); [|discriminate].
  destruct (Z.leb_spec (byte c) 57); [|discriminate].
  cbn [andb]. intros Heq. assert (n = byte c - 48) by congruence. lia.
Qed.

Lemma ascii_digit_range (lo hi : Z) (f : list ascii) (n : Z) :
  ascii_digit lo hi f = Some n -> lo <= n <= hi.
Proof.
  destruct f as [|c [|c' f]]; cbn [ascii_digit]; try discriminate.
  destruct (digit c) as [m|]; [|discriminate].
  destruct (Z.leb_spec lo m); [|discriminate].
  destruct (Z.leb_spec m hi); [|discriminate].
  cbn [andb]. intros Heq. assert (n = m) by congruence. lia.
Qed.

Lemma decimal_digit_range (cp n : Z) : decimal_digit cp = Some n -> 0 <= n <= 9.
Proof.
  unfold decimal_digit.
  destruct (find _ decimal_zeros) as [z|] eqn:E; [|discriminate].
  apply find_some in E as [_ E]. apply andb_true_iff in E as [E1 E2].
  apply Z.leb_le in E1, E2.
  intros Heq. assert (n = cp - z) by congruence. lia.
Qed.

Lemma unicode_digit_range (f : list ascii) (n : Z) :
  unicode_digit f = Some n -> 0 <= n <= 9.
Proof.
  unfold unicode_digit.
  destruct (code_points f) as [[|cp [|cp' l]]|]; try discriminate.
  apply decimal_digit_range.
Qed.

Lemma day_field_range (f : list ascii) (d : Z) :
  day_field f = Some d -> 1 <= d <= 31.
Proof.
  unfold day_field.
  destruct (ascii_digit 1 9 f) as [n|] eqn:E1.
  - apply ascii_digit_range in E1. intros Heq. assert (d = n) by congruence. lia.
  - destruct f as [|c rest]; [discriminate|].
    destruct (Ascii.eqb c "3").
    { destruct (ascii_digit 0 1 rest) as [n|] eqn:E; [|discriminate].
      apply ascii_digit_range in E. cbn [option_map].
      intros Heq. assert (d = 30 + n) by congruence. lia. }
    destruct (Ascii.eqb c "1").
    { destruct (unicode_digit rest) as [n|] eqn:E; [|discriminate].
      apply unicode_digit_range in E. cbn [option_map].
      intros Heq. assert (d = 10 + n) by congruence. lia. }
    destruct (Ascii.eqb c "2").
    { destruct (unicode_digit rest) as [n|] eqn:E; [|discriminate].
      apply unicode_digit_range in E. cbn [option_map].
      intros Heq. assert (d = 20 + n) by congruence. lia. }
    destruct (Ascii.eqb c "0").
    { intros E. apply ascii_digit_range in E. lia. }
    destruct (Ascii.eqb c " "); [|discriminate].
    intros E. apply ascii_digit_range in E. lia.
Qed.

Lemma month_field_range (f : list ascii) (m : Z) :
  month_field f = Some m -> 1 <= m <= 12.
Proof.
  unfold month_field.
  destruct (ascii_digit 1 9 f) as [n|] eqn:E1.
  - apply ascii_digit_range in E1. intros Heq. assert (m = n) by congruence. lia.
  - destruct f as [|c rest]; [discriminate|].
    destruct (Ascii.eqb c "1").
    { destruct (ascii_digit 0 2 rest) as [n|] eqn:E; [|discriminate].
      apply ascii_digit_range in E. cbn [option_map].
      intros Heq. assert (m = 10 + n) by congruence. lia. }
    destruct (Ascii.eqb c "0"); [|discriminate].
    intros E. apply ascii_digit_range in E. lia.
Qed.

Lemma year_field_range (f : list ascii) (y : Z) :
  year_field f = Some y -> 0 <= y <= 9999.
Proof.
  unfold year_field.
  destruct (code_points f) as [[|a [|b [|c [|d [|e l]]]]]|]; try discriminate.
  destruct (decimal_digit a) as [ya|] eqn:Ea; [|discriminate].
  destruct (decimal_digit b) as [yb|] eqn:Eb; [|discriminate].
  destruct (decimal_digit c) as [yc|] eqn:Ec; [|discriminate].
  destruct (decimal_digit d) as [yd|] eqn:Ed; [|discriminate].
  apply decimal_digit_range in Ea, Eb, Ec, Ed.
  intros Heq. assert (y = 1000 * ya + 100 * yb + 10 * yc + yd) by congruence. lia.
Qed.

Lemma strptime_range (s : string) (d : date) :
  strptime s = Ok d -> calendar_range d.
Proof.
  unfold strptime.
  destruct (split_slash s) as [|fd [|fm [|fy [|x l]]]]; try discriminate.
  destruct (day_field fd) as [dd|] eqn:Ed; [|discriminate].
  destruct (month_field fm) as [mm|] eqn:Em; [|discriminate].
  destruct (year_field fy) as [yy|] eqn:Ey; [|discriminate].
  destruct (Z.leb_spec 1 yy); [|discriminate].
  destruct (dd <=? days_in_month yy mm); [|discriminate]. cbn [andb].
  cbn [andb]. intros Heq. assert (Hd : d = mkDate yy mm dd) by congruence. subst d.
  apply day_field_range in Ed. apply month_field_range in Em.
  apply year_field_range in Ey.
  unfold calendar_range. cbn [year month day]. lia.
Qed.









(** ** The [=] of SQL on coordinate pairs *)

Lemma sql_eq_true (a b : option Stations.real) :
  sql_eq a b = true <-> a = b /\ a <> None.
Proof.
  destruct a as [[x|m]|], b as [[y|n]|]; simpl; split;
    try discriminate; try (intros [H _]; discriminate H);
    try (intros [_ H]; now elim H).
  - intros H. apply Z.eqb_eq in H. subst y. split; [reflexivity | discriminate].
  - intros [H _]. injection H as ->. apply Z.eqb_refl.
  - intros H. apply Bool.eqb_prop in H. subst n. split; [reflexivity | discriminate].
  - intros [H _]. injection H as ->. apply Bool.eqb_reflx.
Qed.

Lemma same_coordinates_true (k k' : pair) :
  same_coordinates k k' = true <-> k = k' /\ has_null k = false.
Proof.
  destruct k as [a b], k' as [a' b']. unfold same_coordinates. cbn [fst snd].
  rewrite andb_true_iff, !sql_eq_true. split.
  - intros [[-> Ha] [-> Hb]]. split; [reflexivity|].
    destruct a' as [x|]; [|now elim Ha].
    destruct b' as [y|]; [reflexivity | now elim Hb].
  - intros [[= -> ->] Hn].
    destruct a' as [x|]; [|discriminate].
    destruct b' as [y|]; [|discriminate].
    repeat split; discriminate.
Qed.

Lemma same_coordinates_refl (k : pair) :
  has_null k = false -> same_coordinates k k = true.
Proof. intros H. now apply same_coordinates_true. Qed.

Lemma same_coordinates_sym (k k' : pair) :
  same_coordinates k k' = same_coordinates k' k.
Proof.
  destruct (same_coordinates k k') eqn:E, (same_coordinates k' k) eqn:E';
    try reflexivity.
  - apply same_coordinates_true in E as [-> Hn].
    now rewrite same_coordinates_refl in E'.
  - apply same_coordinates_true in E' as [-> Hn].
    now rewrite same_coordinates_refl in E.
Qed.

(** A pair with a NULL is equal to no pair, not even to itself. *)
Lemma same_coordinates_null (k k' : pair) :
  has_null k' = true -> same_coordinates k k' = false.
Proof.
  intros Hn. destruct (same_coordinates k k') eqn:E; [|reflexivity].
  apply same_coordinates_true in E as [-> H]. congruence.
Qed.

(** ** The three-way decision *)

Lemma select_station_find (cur : database) (la lo : option Stations.real) :
  select_station cur la lo
  = find (fun r => same_coordinates (Stations.coordinates r) (la, lo)) (rows cur).
Proof. reflexivity. Qed.

Lemma select_station_Some (cur : database) (la lo : option Stations.real)
    (r : Stations.row) :
  select_station cur la lo = Some r ->
  In r (rows cur) /\ Stations.coordinates r = (la, lo) /\ has_null (la, lo) = false.
Proof.
  rewrite select_station_find. intros H.
  apply find_some in H as [Hin Hc].
  apply same_coordinates_true in Hc as [Hc Hn].
  split; [assumption|]. split; [assumption | congruence].
Qed.

Lemma select_station_None (cur : database) (la lo : option Stations.real) :
  select_station cur la lo = None <->
  forall r, In r (rows cur) ->
            same_coordinates (Stations.coordinates r) (la, lo) = false.
Proof.
  rewrite select_station_find. split.
  - intros H r Hin. exact (find_none _ _ H r Hin).
  - intros H.
    destruct (find _ (rows cur)) as [r|] eqn:E; [|reflexivity].
    apply find_some in E as [Hin Hc]. rewrite (H r Hin) in Hc. discriminate.
Qed.

Lemma select_station_absent (cur : database) (k : pair) :
  has_null k = false ->
  select_station cur (fst k) (snd k) = None ->
  ~ In k (map Stations.coordinates (rows cur)).
Proof.
  intros Hn H Hin. apply in_map_iff in Hin as (r & Hr & Hin).
  destruct k as [la lo]. cbn [fst snd] in H.
  pose proof (proj1 (select_station_None cur la lo) H r Hin) as Hf.
  rewrite Hr, same_coordinates_refl in Hf by assumption. discriminate.
Qed.

(** A record with a NaN coordinate never finds a Station. *)
Lemma select_station_null (cur : database) (la lo : option Stations.real) :
  has_null (la, lo) = true -> select_station cur la lo = None.
Proof.
  intros Hn. apply select_station_None. intros r _.
  now apply same_coordinates_null.
Qed.

Lemma existsb_select (cur : database) (la lo : option Stations.real) :
  existsb (fun r => sql_eq (Stations.latitude r) la
                    && sql_eq (Stations.longitude r) lo)
          (rows cur) = false <->
  select_station cur la lo = None.
Proof.
  unfold select_station.
  induction (rows cur) as [|r l IH]; simpl; [tauto|].
  destruct (sql_eq (Stations.latitude r) la && sql_eq (Stations.longitude r) lo);
    simpl.
  - split; discriminate.
  - exact IH.
Qed.

(** [upsert] returns as [upsert_spec] says, unless the price of a record
    that is to be written cannot be bound. *)
Lemma upsert_cases (cur : database) (o : observation) :
  (exists cur' out, upsert cur o = Ok (cur', out) /\ upsert_spec cur o cur' out) \/
  (upsert cur o = Raise OverflowError /\ bindable (obs_price o) = false).
Proof.
  unfold upsert.
  destruct (select_station cur (obs_latitude o) (obs_longitude o)) as [r|] eqn:E.
  - destruct (obs_date o <=? Stations.price_date r)%string eqn:Hd.
    + left. exists cur, Ignored. split; [reflexivity|]. now apply upsert_ignore with r.
    + unfold update_station.
      destruct (bindable (obs_price o)) eqn:Hb; [|now right].
      left. eexists _, Updated. split; [reflexivity|]. now apply upsert_update.
  - unfold insert_station.
    destruct (bindable (obs_price o)) eqn:Hb; [|now right].
    apply existsb_select in E as E'. rewrite E'. simpl.
    left. eexists _, Added. split; [reflexivity|]. now apply upsert_insert.
Qed.

Lemma upsert_inv (cur cur' : database) (o : observation) (out : outcome) :
  upsert cur o = Ok (cur', out) -> upsert_spec cur o cur' out.
Proof.
  destruct (upsert_cases cur o) as [(c & x & E & H) | [E _]]; rewrite E.
  - intros [= <- <-]. exact H.
  - discriminate.
Qed.


Lemma upsert_raises (cur : database) (o : observation) (e : exn) :
  upsert cur o = Raise e -> e = OverflowError /\ bindable (obs_price o) = false.
Proof.
  destruct (upsert_cases cur o) as [(c & x & E & _) | [E Hb]]; rewrite E.
  - discriminate.
  - intros [= <-]. now split.
Qed.

Section Properties.

Variable F : string -> option pyfloat.

Lemma normalize_price (s : station) (o : observation) :
  normalize F s = Ok (Some o) -> obs_price o = price s.
Proof.
  unfold normalize, bind.
  destruct (skip_entry F s) as [[|]|]; try discriminate.
  destruct (resolve_address s) as [a|]; try discriminate.
  destruct (float F (latitude s)); try discriminate.
  destruct (float F (longitude s)); try discriminate.
  destruct (strptime (price_date s)); try discriminate.
  now intros [= <-].
Qed.

Lemma process_inv (cur cur' : database) (s : station) (out : outcome) :
  process F cur s = Ok (cur', out) ->
  (normalize F s = Ok None /\ cur' = cur /\ out = Ignored) \/
  (exists o, normalize F s = Ok (Some o) /\ upsert_spec cur o cur' out).
Proof.
  unfold process, bind.
  destruct (normalize F s) as [[o|]|e]; try discriminate.
  - intros H. right. exists o. split; [reflexivity | now apply upsert_inv].
  - intros [= <- <-]. now left.
Qed.

Lemma process_readable (cur cur' : database) (s : station) (out : outcome) :
  process F cur s = Ok (cur', out) -> readable F s.
Proof.
  intros H. apply process_inv in H as [(Hn & _) | (o & Hn & _)];
    unfold readable; eauto.
Qed.



(** An iteration raises what the reading of the record raises, or the
    [OverflowError] of a price that cannot be bound. *)
Lemma process_raise_inv (cur : database) (s : station) (e : exn) :
  process F cur s = Raise e ->
  normalize F s = Raise e \/
  (e = OverflowError /\ bindable (price s) = false /\
   exists o, normalize F s = Ok (Some o)).
Proof.
  unfold process, bind. destruct (normalize F s) as [[o|]|e'] eqn:Hn.
  - intros H. apply upsert_raises in H as [-> Hb]. right.
    rewrite (normalize_price s o Hn) in Hb. eauto.
  - discriminate.
  - intros [= ->]. now left.
Qed.

Lemma for_loop_cons (cur : database) (n : counters) (s : station)
    (rest : list station) (cur' : database) (out : outcome) :
  process F cur s = Ok (cur', out) ->
  for_loop F cur n (s :: rest) = for_loop F cur' (tally n out) rest.
Proof. simpl. now intros ->. Qed.

Lemma for_loop_app (cur : database) (n : counters) (d1 d2 : list station) :
  for_loop F cur n (d1 ++ d2) =
  (r <- for_loop F cur n d1 ;; for_loop F (fst r) (snd r) d2).
Proof.
  revert cur n. induction d1 as [|s d1 IH]; intros cur n; simpl.
  - reflexivity.
  - destruct (process F cur s) as [[c o]|e]; simpl; [apply IH | reflexivity].
Qed.

(** A property of the database that every iteration on a record of the
    batch preserves holds when the loop ends. *)
Lemma for_loop_invariant_in (P : database -> Prop) (data : list station) :
  (forall cur s cur' out,
      In s data -> P cur -> process F cur s = Ok (cur', out) -> P cur') ->
  forall cur n db' n',
    P cur -> for_loop F cur n data = Ok (db', n') -> P db'.
Proof.
  induction data as [|s rest IH]; intros Hstep cur n db' n' HP; simpl.
  - now intros [= <- _].
  - destruct (process F cur s) as [[c o]|e] eqn:E; simpl; [|discriminate].
    apply IH.
    + intros c0 s0 c1 out Hin. apply Hstep. now right.
    + eapply Hstep; [now left | exact HP | exact E].
Qed.

Lemma for_loop_invariant (P : database -> Prop) :
  (forall cur s cur' out, P cur -> process F cur s = Ok (cur', out) -> P cur') ->
  forall data cur n db' n',
    P cur -> for_loop F cur n data = Ok (db', n') -> P db'.
Proof.
  intros Hstep data. apply for_loop_invariant_in.
  intros cur s cur' out _. apply Hstep.
Qed.

(** A loop that returns has read every record. *)
Lemma for_loop_returns (data : list station) :
  forall cur n,
    (exists r, for_loop F cur n data = Ok r) -> Forall (readable F) data.
Proof.
  induction data as [|s rest IH]; intros cur n; simpl.
  - constructor.
  - intros (r & H).
    destruct (process F cur s) as [[c out]|e] eqn:E; simpl in H; [|discriminate].
    constructor.
    + eapply process_readable; eassumption.
    + apply (IH c (tally n out)). eauto.
Qed.


(** *** Counters *)

Lemma for_loop_counts (data : list station) :
  forall cur a u i db' a' u' i',
    for_loop F cur (a, u, i) data = Ok (db', (a', u', i')) ->
    (a' + u' + i' = a + u + i + List.length data)%nat.
Proof.
  induction data as [|s rest IH]; intros cur a u i db' a' u' i'; simpl.
  - intros [= _ <- <- <-]. lia.
  - destruct (process F cur s) as [[c o]|e]; simpl; [|discriminate].
    intros H. destruct o; apply IH in H; lia.
Qed.

(** C10.  When [update_database] returns, the three counters add up to
    the number of records of the batch: every record is counted once. *)
Theorem update_database_counts_every_record
    (db db' : database) (data : list station) (n_added n_updated n_ignored : nat) :
  update_database F db data = Ok (db', (n_added, n_updated, n_ignored)) ->
  (n_added + n_updated + n_ignored)%nat = List.length data.
Proof.
  unfold update_database. intros H.
  apply for_loop_counts in H.
  rewrite H. reflexivity.
Qed.

(** *** Records skipped at line 90 *)

Lemma Qltb_lt (x y : Q) : Qltb x y = true <-> (x < y)%Q.
Proof.
  unfold Qltb. rewrite negb_true_iff. split.
  - intros H. apply Qnot_le_lt. intros Hle.
    apply Qle_bool_iff in Hle. congruence.
  - intros H. destruct (Qle_bool y x) eqn:E; [|reflexivity].
    apply Qle_bool_iff in E. now apply Qlt_not_le in H.
Qed.

Lemma is_empty_true (v : jvalue) : is_empty v = true <-> v = JStr "".
Proof.
  destruct v as [z|x|s]; simpl.
  - split; discriminate.
  - split; discriminate.
  - rewrite String.eqb_eq. split; [now intros -> | now intros [= ->]].
Qed.

Lemma skipped_is_ignored (s : station) (cur : database) :
  skip_entry F s = Ok true -> process F cur s = Ok (cur, Ignored).
Proof. unfold process, normalize, bind. now intros ->. Qed.

Lemma skip_entry_price_empty (s : station) :
  price s = JStr "" -> skip_entry F s = Ok true.
Proof.
  intros H. unfold skip_entry.
  apply is_empty_true in H. now rewrite H.
Qed.

Lemma skip_entry_price_low (s : station) (x : pyfloat) :
  float F (price s) = Ok x -> float_lt x (1 # 10) = true ->
  skip_entry F s = Ok true.
Proof.
  intros Hf Hx. unfold skip_entry. rewrite Hf. simpl.
  rewrite Hx. now destruct (is_empty (price s)).
Qed.

Lemma skip_entry_date_empty (s : station) (x : pyfloat) :
  float F (price s) = Ok x -> price_date s = ""%string ->
  skip_entry F s = Ok true.
Proof.
  intros Hf Hd. unfold skip_entry. rewrite Hf, Hd. simpl.
  destruct (is_empty (price s)); [reflexivity|].
  now destruct (float_lt x (1 # 10)).
Qed.

(** C8, amended.  A record is ignored, leaves the database as it is and
    lets the loop go on with the next record when its price is the empty
    string, or when [float(price)] is below 0.1 (a number below 0.1, or
    minus infinity), or when its date is the empty string and
    [float(price)] is a float. *)
Theorem rejected_record_is_ignored (s : station)
    (H : price s = JStr "" \/
         (exists q, float F (price s) = Ok (Finite q) /\ (q < 1 # 10)%Q) \/
         (exists x, float F (price s) = Ok x /\ float_lt x (1 # 10) = true) \/
         (price_date s = ""%string /\ exists x, float F (price s) = Ok x)) :
  forall (cur : database) (a u i : nat) (rest : list station),
    process F cur s = Ok (cur, Ignored) /\
    for_loop F cur (a, u, i) (s :: rest) = for_loop F cur (a, u, S i) rest.
Proof.
  assert (Hs : skip_entry F s = Ok true).
  { destruct H as [H | [(q & Hf & Hq) | [(x & Hf & Hx) | (Hd & x & Hf)]]].
    - now apply skip_entry_price_empty.
    - apply skip_entry_price_low with (Finite q); [assumption|].
      now apply Qltb_lt.
    - now apply skip_entry_price_low with x.
    - now apply skip_entry_date_empty with x. }
  intros cur a u i rest.
  pose proof (skipped_is_ignored s cur Hs) as Hp.
  split; [exact Hp|].
  now rewrite (for_loop_cons cur (a, u, i) s rest cur Ignored Hp).
Qed.

(** The rejection floor: a price of 0.05 is ignored whatever the date. *)
Lemma rejection_floor (s : station) (cur : database) :
  price s = num (5 # 100) -> process F cur s = Ok (cur, Ignored).
Proof.
  intros H. apply skipped_is_ignored.
  apply skip_entry_price_low with (Finite (5 # 100)); [now rewrite H | reflexivity].
Qed.

(** *** Dates that [strptime] refuses *)

Lemma for_loop_raise_at (pre rest : list station) (s : station) :
  (forall cur, exists e, process F cur s = Raise e) ->
  forall cur n, exists e, for_loop F cur n (pre ++ s :: rest) = Raise e.
Proof.
  intros Hs cur n. rewrite for_loop_app. unfold bind.
  destruct (for_loop F cur n pre) as [[c m]|e]; [|eauto].
  simpl. destruct (Hs c) as (e & ->). simpl. eauto.
Qed.

(** C4, amended.  A record whose date [strptime] refuses is ignored only
    when the test of line 90 already skips it (empty or low price), since
    that test comes first.  Otherwise the record makes [update_database]
    raise (ValueError from [strptime] when price, address and coordinates
    are in order): no counters are returned and nothing is committed. *)
Theorem unparseable_date (s : station)
    (Hdate : strptime (price_date s) = Raise ValueError) :
  (skip_entry F s = Ok true ->
   forall cur, process F cur s = Ok (cur, Ignored)) /\
  (skip_entry F s <> Ok true ->
   forall db pre rest,
     (exists e, update_database F db (pre ++ s :: rest) = Raise e) /\
     main F db (pre ++ s :: rest) = (db, None)) /\
  (skip_entry F s = Ok false ->
   forall a la lo cur,
     resolve_address s = Ok a ->
     float F (latitude s) = Ok la -> float F (longitude s) = Ok lo ->
     process F cur s = Raise ValueError).
Proof.
  split; [|split].
  - intros Hs cur. now apply skipped_is_ignored.
  - intros Hs db pre rest.
    assert (Hr : exists e, update_database F db (pre ++ s :: rest) = Raise e).
    { apply for_loop_raise_at. intros cur. unfold process, normalize, bind.
      destruct (skip_entry F s) as [[|]|e]; [congruence| |eauto].
      destruct (resolve_address s); [|eauto].
      destruct (float F (latitude s)); [|eauto].
      destruct (float F (longitude s)); [|eauto].
      rewrite Hdate. eauto. }
    split; [exact Hr|].
    destruct Hr as (e & Hr). unfold main. now rewrite Hr.
  - intros Hs a la lo cur Ha Hla Hlo.
    unfold process, normalize, bind.
    now rewrite Hs, Ha, Hla, Hlo, Hdate.
Qed.

(** *** Address resolution *)

Lemma append_assoc (a b c : string) : ((a ++ b) ++ c = a ++ (b ++ c))%string.
Proof. induction a as [|x a IH]; simpl; [reflexivity | now rewrite IH]. Qed.

Lemma normalize_address (s : station) (o : observation) :
  normalize F s = Ok (Some o) -> resolve_address s = Ok (obs_address o).
Proof.
  unfold normalize, bind.
  destruct (skip_entry F s) as [[|]|]; try discriminate.
  destruct (resolve_address s) as [a|]; try discriminate.
  destruct (float F (latitude s)); try discriminate.
  destruct (float F (longitude s)); try discriminate.
  destruct (strptime (price_date s)); try discriminate.
  now intros [= <-].
Qed.

Lemma addresses_set_price (p : jvalue) (d : string) (i : Z) (l : list Stations.row) :
  map Stations.address
      (map (fun r => if Stations.id r =? i then set_price p d r else r) l)
  = map Stations.address l.
Proof.
  rewrite map_map. apply map_ext. intros r.
  now destruct (Stations.id r =? i).
Qed.

(** C9, amended.  The address stored for a record that creates a Station
    is the [address-compact] string when the record has one (whatever
    structured address it also has); otherwise it is street, postal code
    and city joined by [", "], followed by [", "] and the country exactly
    when the structured address has a country.  A record that is applied
    as an update, or ignored, stores no address: the addresses of the
    store stay as they were. *)
Theorem stored_address_resolution
    (cur cur' : database) (s : station) (out : outcome) :
  process F cur s = Ok (cur', out) ->
  match out with
  | Added =>
      exists r,
        rows cur' = rows cur ++ [r] /\
        match address_compact s with
        | Some a => Stations.address r = a
        | None =>
            exists d, address s = Some d /\
              Stations.address r =
                match country d with
                | Some c =>
                    (street d ++ ", " ++ postal_code d ++ ", " ++ city d
                     ++ ", " ++ c)%string
                | None =>
                    (street d ++ ", " ++ postal_code d ++ ", " ++ city d)%string
                end
        end
  | Updated | Ignored =>
      map Stations.address (rows cur') = map Stations.address (rows cur)
  end.
Proof.
  intros H. apply process_inv in H as [(_ & -> & ->) | (o & Hn & Hu)];
    [reflexivity|].
  apply normalize_address in Hn.
  inversion Hu; subst.
  - eexists. split; [reflexivity|]. simpl.
    revert Hn. unfold resolve_address.
    destruct (address_compact s) as [a|].
    + now intros [= <-].
    + destruct (address s) as [d|]; [|discriminate].
      exists d. split; [reflexivity|].
      destruct (country d) as [c|]; injection Hn as <-; [|reflexivity].
      repeat (rewrite append_assoc; simpl). reflexivity.
  - cbn [rows apply_update]. apply addresses_set_price.
  - reflexivity.
Qed.

(** *** Runs of the script *)

Lemma main_cases (db : database) (data : list station) :
  (exists db' n, update_database F db data = Ok (db', n) /\
                 main F db data = (db', Some n)) \/
  (exists e, update_database F db data = Raise e /\ main F db data = (db, None)).
Proof.
  unfold main. destruct (update_database F db data) as [[db' n]|e]; eauto.
Qed.

(** A property that every returning call of [update_database] on one of
    the batches preserves holds after the runs. *)
Lemma ingest_invariant_in (P : database -> Prop) (batches : list (list station)) :
  (forall db data db' n,
      In data batches -> P db -> update_database F db data = Ok (db', n) -> P db') ->
  forall db, P db -> P (ingest F db batches).
Proof.
  induction batches as [|b bs IH]; intros Hrun db HP; simpl.
  - exact HP.
  - apply IH.
    + intros d data d' n Hin. apply Hrun. now right.
    + destruct (main_cases db b) as [(db' & n & E & ->) | (e & _ & ->)]; simpl.
      * eapply Hrun; [now left | exact HP | exact E].
      * exact HP.
Qed.

Lemma ingest_invariant (P : database -> Prop) :
  (forall db data db' n, P db -> update_database F db data = Ok (db', n) -> P db') ->
  forall batches db, P db -> P (ingest F db batches).
Proof.
  intros Hrun batches. apply ingest_invariant_in.
  intros db data db' n _. apply Hrun.
Qed.

(** *** The exceptions of the loop *)

Lemma strptime_raises (s : string) (e : exn) :
  strptime s = Raise e -> e = ValueError.
Proof.
  unfold strptime.
  repeat match goal with
         | |- context [match ?x with _ => _ end] => destruct x
         end; congruence.
Qed.

Lemma float_raises (v : jvalue) (e : exn) :
  float F v = Raise e -> e = ValueError \/ e = OverflowError.
Proof.
  destruct v as [z|x|s]; simpl.
  - destruct (Z.abs z <? float_overflow); [discriminate|]. intros [= <-]. now right.
  - discriminate.
  - destruct (F s); [discriminate|]. intros [= <-]. now left.
Qed.

Lemma skip_entry_raises (s : station) (e : exn) :
  skip_entry F s = Raise e -> e = ValueError \/ e = OverflowError.
Proof.
  unfold skip_entry, bind.
  destruct (is_empty (price s)); [discriminate|].
  destruct (float F (price s)) as [p|e'] eqn:Hp.
  - destruct (float_lt p (1 # 10)); discriminate.
  - intros [= <-]. eapply float_raises; eassumption.
Qed.

Lemma normalize_raises (s : station) (e : exn) :
  normalize F s = Raise e -> e = KeyError \/ e = ValueError \/ e = OverflowError.
Proof.
  unfold normalize, bind.
  destruct (skip_entry F s) as [[|]|e0] eqn:Hs; try discriminate.
  - destruct (resolve_address s) as [a|e1] eqn:Ha.
    + destruct (float F (latitude s)) as [la|e2] eqn:Hla;
        [|intros [= <-]; right; eapply float_raises; eassumption].
      destruct (float F (longitude s)) as [lo|e3] eqn:Hlo;
        [|intros [= <-]; right; eapply float_raises; eassumption].
      destruct (strptime (price_date s)) as [d|e4] eqn:Hd; [discriminate|].
      intros [= <-]. right. left. eapply strptime_raises; eassumption.
    + intros [= <-]. left. revert Ha. unfold resolve_address.
      destruct (address_compact s); [discriminate|].
      destruct (address s) as [d|]; [|congruence].
      destruct (country d); discriminate.
  - intros [= <-]. right. eapply skip_entry_raises; eassumption.
Qed.

Lemma for_loop_raises (data : list station) :
  forall cur n e,
    for_loop F cur n data = Raise e ->
    e = KeyError \/ e = ValueError \/ e = OverflowError.
Proof.
  induction data as [|s rest IH]; intros cur n e; simpl; [discriminate|].
  destruct (process F cur s) as [[c o]|e'] eqn:E; simpl.
  - apply IH.
  - intros [= <-].
    apply process_raise_inv in E as [E | (-> & _)]; [|auto].
    eapply normalize_raises; eassumption.
Qed.

(** *** Uniqueness of coordinate pairs *)

Lemma coordinates_set_price (p : jvalue) (d : string) (i : Z) (l : list Stations.row) :
  map Stations.coordinates
      (map (fun r => if Stations.id r =? i then set_price p d r else r) l)
  = map Stations.coordinates l.
Proof.
  rewrite map_map. apply map_ext. intros r.
  now destruct (Stations.id r =? i).
Qed.

Lemma ids_set_price (p : jvalue) (d : string) (i : Z) (l : list Stations.row) :
  map Stations.id
      (map (fun r => if Stations.id r =? i then set_price p d r else r) l)
  = map Stations.id l.
Proof.
  rewrite map_map. apply map_ext. intros r.
  now destruct (Stations.id r =? i).
Qed.

Lemma filter_set_price (f : pair -> bool) (p : jvalue) (d : string) (i : Z)
    (l : list Stations.row) :
  filter (fun r => f (Stations.coordinates r))
         (map (fun r => if Stations.id r =? i then set_price p d r else r) l)
  = map (fun r => if Stations.id r =? i then set_price p d r else r)
        (filter (fun r => f (Stations.coordinates r)) l).
Proof.
  induction l as [|r l IH]; simpl; [reflexivity|].
  assert (E : Stations.coordinates
                (if Stations.id r =? i then set_price p d r else r)
              = Stations.coordinates r)
    by now destruct (Stations.id r =? i).
  rewrite E. destruct (f (Stations.coordinates r)); simpl; now rewrite IH.
Qed.

Lemma numbered_rows_update (cur : database) (p : jvalue) (d : string) (i : Z) :
  map Stations.coordinates (numbered_rows (apply_update cur p d i))
  = map Stations.coordinates (numbered_rows cur).
Proof.
  unfold numbered_rows. cbn [rows apply_update].
  rewrite (filter_set_price (fun k => negb (has_null k))).
  apply coordinates_set_price.
Qed.


Lemma numbered_rows_insert (cur : database) (o : observation) (i j : Z) :
  numbered_rows (mkDatabase (rows cur ++ [new_row i o]) j)
  = numbered_rows cur
    ++ (if has_null (obs_coordinates o) then [] else [new_row i o]).
Proof.
  unfold numbered_rows. cbn [rows]. rewrite filter_app. f_equal.
  cbn [filter]. change (Stations.coordinates (new_row i o)) with (obs_coordinates o).
  now destruct (has_null (obs_coordinates o)).
Qed.


Lemma in_numbered_rows (db : database) (r : Stations.row) :
  In r (numbered_rows db) <->
  In r (rows db) /\ has_null (Stations.coordinates r) = false.
Proof.
  unfold numbered_rows. rewrite filter_In, negb_true_iff. reflexivity.
Qed.

(** Pairwise distinct pairs are, in particular, distinct for SQL. *)
Lemma unique_coordinates_sql_unique (db : database) :
  unique_coordinates db -> sql_unique db.
Proof.
  unfold unique_coordinates, sql_unique, numbered_rows.
  induction (rows db) as [|r l IH]; cbn [filter map]; [auto|].
  intros H. apply NoDup_cons_iff in H as [Hr Hl].
  destruct (negb (has_null (Stations.coordinates r))); cbn [map]; [|auto].
  constructor; [|auto].
  intros Hin. apply Hr. apply in_map_iff in Hin as (x & Hx & Hin).
  apply filter_In in Hin as [Hin _]. rewrite <- Hx. now apply in_map.
Qed.

Lemma upsert_sql_unique (cur cur' : database) (o : observation) (out : outcome) :
  upsert_spec cur o cur' out -> sql_unique cur -> sql_unique cur'.
Proof.
  unfold sql_unique. intros H Hu. destruct H as [Hs Hb | r Hs Hd Hb | r Hs Hd].
  - rewrite numbered_rows_insert.
    destruct (has_null (obs_coordinates o)) eqn:Hn;
      [now rewrite app_nil_r|].
    rewrite map_app. simpl. apply NoDup_app; [assumption | | ].
    + constructor; [intros [] | constructor].
    + intros k Hk [<-|[]].
      apply in_map_iff in Hk as (r & Hr & Hin).
      apply in_numbered_rows in Hin as [Hin _].
      apply (select_station_absent cur (obs_coordinates o) Hn Hs).
      change (Stations.coordinates (new_row (next_id cur) o))
        with (obs_coordinates o) in Hr.
      rewrite <- Hr. now apply in_map.
  - now rewrite numbered_rows_update.
  - assumption.
Qed.

Lemma process_sql_unique (cur cur' : database) (s : station) (out : outcome) :
  sql_unique cur -> process F cur s = Ok (cur', out) -> sql_unique cur'.
Proof.
  intros Hu H. apply process_inv in H as [(_ & -> & _) | (o & _ & H)].
  - assumption.
  - eapply upsert_sql_unique; eassumption.
Qed.

Lemma update_database_sql_unique
    (db db' : database) (data : list station) (n : counters) :
  sql_unique db -> update_database F db data = Ok (db', n) -> sql_unique db'.
Proof.
  unfold update_database. intros Hu H.
  eapply (for_loop_invariant sql_unique); [|exact Hu|exact H].
  intros cur s cur' out. apply process_sql_unique.
Qed.

(** When the pair of the observation has no NULL, full uniqueness is
    preserved too. *)
Lemma upsert_unique_coordinates (cur cur' : database) (o : observation) (out : outcome) :
  has_null (obs_coordinates o) = false ->
  upsert_spec cur o cur' out -> unique_coordinates cur -> unique_coordinates cur'.
Proof.
  unfold unique_coordinates. intros Hn H Hu.
  destruct H as [Hs Hb | r Hs Hd Hb | r Hs Hd]; simpl.
  - rewrite map_app. simpl. apply NoDup_app; [assumption | | ].
    + constructor; [intros [] | constructor].
    + intros k Hk [<-|[]].
      now apply (select_station_absent cur (obs_coordinates o) Hn Hs).
  - now rewrite coordinates_set_price.
  - assumption.
Qed.

Lemma update_database_unique_coordinates
    (db db' : database) (data : list station) (n : counters) :
  no_nan F data ->
  unique_coordinates db -> update_database F db data = Ok (db', n) ->
  unique_coordinates db'.
Proof.
  unfold update_database. intros Hnn Hu H.
  eapply (for_loop_invariant_in unique_coordinates data); [|exact Hu|exact H].
  intros cur s cur' out Hin Hc Hp.
  apply process_inv in Hp as [(_ & -> & _) | (o & Hn & Hp)]; [assumption|].
  eapply upsert_unique_coordinates; [|exact Hp|exact Hc].
  eapply Hnn; eassumption.
Qed.

(** C3, amended.  What [update_database] keeps, in one run or in several,
    is the [UNIQUE(latitude, longitude)] of SQL: the Stations whose pair
    has no NULL have pairwise distinct pairs.  When no record that reaches
    the lookup has a NaN coordinate, all the Stations of a store with
    pairwise distinct pairs still have pairwise distinct pairs.  And since
    the insert follows a lookup that found nothing, the [UNIQUE]
    constraint never makes a run fail. *)
Theorem coordinates_stay_unique (db : database) (Hu : sql_unique db) :
  (forall data db' n,
      update_database F db data = Ok (db', n) -> sql_unique db') /\
  (forall batches, sql_unique (ingest F db batches)) /\
  (unique_coordinates db ->
   (forall data db' n,
       no_nan F data ->
       update_database F db data = Ok (db', n) -> unique_coordinates db') /\
   (forall batches,
       (forall data, In data batches -> no_nan F data) ->
       unique_coordinates (ingest F db batches))) /\
  (forall data, update_database F db data <> Raise IntegrityError).
Proof.
  split; [|split; [|split]].
  - intros data db' n. now apply update_database_sql_unique.
  - intros batches. apply ingest_invariant; [|assumption].
    intros d data d' n Hd. now apply update_database_sql_unique.
  - intros Huc. split.
    + intros data db' n Hnn. now apply update_database_unique_coordinates.
    + intros batches Hnn.
      apply (ingest_invariant_in unique_coordinates batches); [|assumption].
      intros d data d' n Hin Hd. apply update_database_unique_coordinates; auto.
  - intros data H. apply for_loop_raises in H as [H|[H|H]]; discriminate.
Qed.

(** *** Identity and uniqueness of rows *)

Lemma NoDup_map_eq {A B : Type} (f : A -> B) (l : list A) (x y : A) :
  NoDup (map f l) -> In x l -> In y l -> f x = f y -> x = y.
Proof.
  induction l as [|a l IH]; simpl; [tauto|].
  intros Hnd Hx Hy Hf. apply NoDup_cons_iff in Hnd as [Hna Hnd].
  destruct Hx as [<-|Hx], Hy as [<-|Hy]; auto.
  - exfalso. apply Hna. rewrite Hf. now apply in_map.
  - exfalso. apply Hna. rewrite <- Hf. now apply in_map.
Qed.



Lemma next_id_fresh (cur : database) (r : Stations.row) :
  In r (rows cur) -> Stations.id r < next_id cur.
Proof.
  unfold next_id. induction (rows cur) as [|x l IH]; cbn [fold_right map In];
    [tauto|].
  intros [->|H]; [lia|]. apply IH in H. lia.
Qed.

Lemma next_id_seq (cur : database) : seq cur < next_id cur.
Proof.
  unfold next_id. induction (rows cur) as [|x l IH]; cbn [fold_right map]; lia.
Qed.

Lemma upsert_unique_ids (cur cur' : database) (o : observation) (out : outcome) :
  upsert_spec cur o cur' out -> unique_ids cur -> unique_ids cur'.
Proof.
  unfold unique_ids. intros H Hu.
  destruct H as [Hs Hb | r Hs Hd Hb | r Hs Hd]; simpl.
  - rewrite map_app. simpl. apply NoDup_app; [assumption | | ].
    + constructor; [intros [] | constructor].
    + intros k Hk [<-|[]]. apply in_map_iff in Hk as (x & Hx & Hin).
      apply next_id_fresh in Hin. lia.
  - now rewrite ids_set_price.
  - assumption.
Qed.

Lemma process_unique_ids (cur cur' : database) (s : station) (out : outcome) :
  unique_ids cur -> process F cur s = Ok (cur', out) -> unique_ids cur'.
Proof.
  intros Hu H. apply process_inv in H as [(_ & -> & _) | (o & _ & H)].
  - assumption.
  - eapply upsert_unique_ids; eassumption.
Qed.

Lemma update_database_unique_ids
    (db db' : database) (data : list station) (n : counters) :
  unique_ids db -> update_database F db data = Ok (db', n) -> unique_ids db'.
Proof.
  unfold update_database. intros Hu H.
  eapply (for_loop_invariant unique_ids); [|exact Hu|exact H].
  intros cur s cur' out. apply process_unique_ids.
Qed.

(** *** The decision for one record *)




(** *** What an update leaves alone *)

Lemma Forall2_diag {A : Type} (R : A -> A -> Prop) (l : list A) :
  (forall x, R x x) -> Forall2 R l l.
Proof. intros HR. induction l; constructor; auto. Qed.

Lemma Forall2_map_self {A : Type} (R : A -> A -> Prop) (g : A -> A) (l : list A) :
  (forall x, In x l -> R x (g x)) -> Forall2 R l (map g l).
Proof.
  induction l as [|a l IH]; intros HR; simpl; constructor.
  - apply HR. now left.
  - apply IH. intros x Hx. apply HR. now right.
Qed.

Lemma Forall2_compose {A : Type} (R : A -> A -> Prop) (l1 l2 l3 : list A) :
  (forall x y z, R x y -> R y z -> R x z) ->
  Forall2 R l1 l2 -> Forall2 R l2 l3 -> Forall2 R l1 l3.
Proof.
  intros HR H12. revert l3.
  induction H12 as [|x y l1 l2 Hxy H12 IH]; intros l3 H23;
    inversion H23; subst; constructor; eauto.
Qed.

Lemma grows_refl (R : Stations.row -> Stations.row -> Prop) (db : database) :
  (forall x, R x x) -> grows R db db.
Proof.
  intros HR. exists (rows db), []. split.
  - now rewrite app_nil_r.
  - now apply Forall2_diag.
Qed.

Lemma grows_trans (R : Stations.row -> Stations.row -> Prop) (a b c : database) :
  (forall x y z, R x y -> R y z -> R x z) ->
  grows R a b -> grows R b c -> grows R a c.
Proof.
  intros HR (o1 & n1 & Hb & H1) (o2 & n2 & Hc & H2).
  rewrite Hb in H2. apply Forall2_app_inv_l in H2 as (o2a & o2b & Ha & _ & ->).
  exists o2a, (o2b ++ n2). split.
  - now rewrite Hc, app_assoc.
  - eapply Forall2_compose; eassumption.
Qed.

Lemma same_station_refl (r : Stations.row) : same_station r r.
Proof. now repeat split. Qed.

Lemma same_station_trans (x y z : Stations.row) :
  same_station x y -> same_station y z -> same_station x z.
Proof.
  unfold same_station. intros (H1 & H2 & H3 & H4) (G1 & G2 & G3 & G4).
  repeat split; congruence.
Qed.

Lemma same_station_set_price (p : jvalue) (d : string) (r : Stations.row) :
  same_station r (set_price p d r).
Proof. now repeat split. Qed.

Lemma upsert_keeps_stations (cur cur' : database) (o : observation) (out : outcome) :
  upsert_spec cur o cur' out -> grows same_station cur cur'.
Proof.
  intros [Hs Hb | r Hs Hd Hb | r Hs Hd].
  - eexists (rows cur), _. split; [reflexivity|].
    apply Forall2_diag, same_station_refl.
  - exists (rows (apply_update cur (obs_price o) (obs_date o) (Stations.id r))), [].
    split; [now rewrite app_nil_r|]. simpl.
    apply Forall2_map_self. intros x _.
    destruct (Stations.id x =? Stations.id r);
      [apply same_station_set_price | apply same_station_refl].
  - apply grows_refl, same_station_refl.
Qed.

Lemma update_database_keeps_stations
    (db db' : database) (data : list station) (n : counters) :
  update_database F db data = Ok (db', n) -> grows same_station db db'.
Proof.
  unfold update_database. intros H.
  eapply (for_loop_invariant (grows same_station db)); [| |exact H].
  - intros cur s cur' out Hg Hp. eapply grows_trans; [|exact Hg|].
    + apply same_station_trans.
    + apply process_inv in Hp as [(_ & -> & _) | (o & _ & Hp)].
      * apply grows_refl, same_station_refl.
      * eapply upsert_keeps_stations; eassumption.
  - apply grows_refl, same_station_refl.
Qed.

(** C7.  An update writes [fuel_price] and [price_date] of the rows it
    touches and nothing else: every row keeps its id, latitude, longitude
    and address, and is either unchanged or carries the price and date of
    the observation.  Hence after any number of runs the Stations of the
    initial store are still there, in place, with the id, coordinates and
    address they had; in particular a stored address never changes. *)
Theorem update_keeps_identity_and_address :
  (forall cur cur' o,
      upsert cur o = Ok (cur', Updated) ->
      seq cur' = seq cur /\
      Forall2 (fun r r' =>
                 same_station r r' /\
                 (r' = r \/
                  (Stations.fuel_price r' = obs_price o /\
                   Stations.price_date r' = obs_date o)))
              (rows cur) (rows cur')) /\
  (forall db batches, grows same_station db (ingest F db batches)).
Proof.
  split.
  - intros cur cur' o H. apply upsert_inv in H.
    inversion H as [| r Hs Hd Hb |]; subst. simpl. split; [reflexivity|].
    apply Forall2_map_self. intros x _.
    destruct (Stations.id x =? Stations.id r).
    + split; [apply same_station_set_price | now right].
    + split; [apply same_station_refl | now left].
  - intros db batches.
    apply (ingest_invariant (grows same_station db)).
    + intros d data d' n Hg Hrun. eapply grows_trans; [|exact Hg|].
      * apply same_station_trans.
      * eapply update_database_keeps_stations; eassumption.
    + apply grows_refl, same_station_refl.
Qed.

(** *** The stored dates as a function of the coordinates *)

Lemma find_append {A : Type} (f : A -> bool) (l1 l2 : list A) :
  find f (l1 ++ l2)
  = match find f l1 with Some x => Some x | None => find f l2 end.
Proof.
  induction l1 as [|a l1 IH]; simpl; [reflexivity|].
  now destruct (f a).
Qed.

Lemma find_map_same {A : Type} (f : A -> bool) (g : A -> A) (l : list A) :
  (forall x, f (g x) = f x) ->
  find f (map g l) = option_map g (find f l).
Proof.
  intros Hfg. induction l as [|a l IH]; simpl; [reflexivity|].
  rewrite Hfg. now destruct (f a).
Qed.

Lemma stored_date_select (cur : database) (k : pair) (r : Stations.row) :
  select_station cur (fst k) (snd k) = Some r ->
  stored_date cur k = Some (Stations.price_date r).
Proof. unfold stored_date. now intros ->. Qed.

Lemma stored_date_none (cur : database) (k : pair) :
  stored_date cur k = None <-> select_station cur (fst k) (snd k) = None.
Proof.
  unfold stored_date.
  destruct (select_station cur (fst k) (snd k)); simpl; split; congruence.
Qed.

(** No date is stored under a pair with a NULL. *)
Lemma stored_date_null (cur : database) (k : pair) :
  has_null k = true -> stored_date cur k = None.
Proof.
  intros Hn. apply stored_date_none. destruct k as [la lo].
  now apply select_station_null.
Qed.

Lemma stored_date_insert (cur : database) (o : observation) (i j : Z) (k : pair) :
  select_station cur (obs_latitude o) (obs_longitude o) = None ->
  stored_date (mkDatabase (rows cur ++ [new_row i o]) j) k
  = if same_coordinates k (obs_coordinates o)
    then Some (obs_date o)
    else stored_date cur k.
Proof.
  intros Hs. unfold stored_date.
  assert (Hsel : select_station (mkDatabase (rows cur ++ [new_row i o]) j)
                                (fst k) (snd k)
                 = match select_station cur (fst k) (snd k) with
                   | Some x => Some x
                   | None => if same_coordinates (obs_coordinates o) k
                             then Some (new_row i o) else None
                   end).
  { destruct k as [la lo]. unfold select_station. simpl. now rewrite find_append. }
  rewrite Hsel, (same_coordinates_sym (obs_coordinates o) k).
  destruct (same_coordinates k (obs_coordinates o)) eqn:E.
  - apply same_coordinates_true in E as [-> _].
    unfold obs_coordinates at 1 2. cbn [fst snd].
    now rewrite Hs.
  - now destruct (select_station cur (fst k) (snd k)) as [x|].
Qed.

Lemma select_station_update (cur : database) (p : jvalue) (d : string)
    (i : Z) (la lo : option Stations.real) :
  select_station (apply_update cur p d i) la lo
  = option_map (fun r => if Stations.id r =? i then set_price p d r else r)
               (select_station cur la lo).
Proof.
  unfold select_station. simpl. apply find_map_same.
  intros x. now destruct (Stations.id x =? i).
Qed.

Lemma stored_date_update (cur : database) (r : Stations.row)
    (p : jvalue) (d : string) (k0 k : pair) :
  unique_ids cur ->
  select_station cur (fst k0) (snd k0) = Some r ->
  stored_date (apply_update cur p d (Stations.id r)) k
  = if same_coordinates k k0 then Some d else stored_date cur k.
Proof.
  intros Hu Hs. unfold stored_date.
  rewrite select_station_update.
  destruct (same_coordinates k k0) eqn:E.
  - apply same_coordinates_true in E as [-> _]. rewrite Hs. simpl.
    now rewrite Z.eqb_refl.
  - destruct (select_station cur (fst k) (snd k)) as [x|] eqn:Hx; [|reflexivity].
    simpl.
    destruct (Z.eqb_spec (Stations.id x) (Stations.id r)) as [Hid|]; [|reflexivity].
    exfalso.
    apply select_station_Some in Hx as (Hinx & Hcx & Hnx).
    apply select_station_Some in Hs as (Hinr & Hcr & Hnr).
    assert (x = r) by (eapply NoDup_map_eq; [exact Hu| | |]; assumption).
    subst x.
    assert (k = k0) by (destruct k, k0; simpl in *; congruence).
    subst k. rewrite same_coordinates_refl in E; [discriminate|].
    now destruct k0.
Qed.

Lemma upsert_stored_date (cur cur' : database) (o : observation) (out : outcome) :
  unique_ids cur -> upsert_spec cur o cur' out ->
  forall k, stored_date cur' k = merge_date (stored_date cur) o k.
Proof.
  intros Hu H k. unfold merge_date.
  destruct H as [Hs Hb | r Hs Hd Hb | r Hs Hd].
  - rewrite stored_date_insert by assumption.
    apply (proj2 (stored_date_none cur (obs_coordinates o))) in Hs.
    now rewrite Hs.
  - rewrite (stored_date_update cur r _ _ (obs_coordinates o)) by assumption.
    rewrite (stored_date_select cur (obs_coordinates o) r Hs).
    now rewrite greater_absorb by (now apply date_lt_le).
  - destruct (same_coordinates k (obs_coordinates o)) eqn:E; [|reflexivity].
    apply same_coordinates_true in E as [-> _].
    rewrite (stored_date_select cur (obs_coordinates o) r Hs).
    now rewrite greater_comm, greater_absorb.
Qed.

Lemma process_stored_date (cur cur' : database) (s : station) (out : outcome) :
  unique_ids cur -> process F cur s = Ok (cur', out) ->
  forall k, stored_date cur' k = merge_record F (stored_date cur) s k.
Proof.
  intros Hu H k. unfold merge_record.
  apply process_inv in H as [(-> & -> & _) | (o & -> & H)]; [reflexivity|].
  now apply upsert_stored_date with out.
Qed.

Lemma merge_record_ext (v v' : pair -> option string) (s : station) :
  (forall k, v k = v' k) ->
  forall k, merge_record F v s k = merge_record F v' s k.
Proof.
  intros Hv k. unfold merge_record.
  destruct (normalize F s) as [[o|]|e]; auto.
  unfold merge_date. now rewrite !Hv.
Qed.

Lemma fold_merge_ext (data : list station) :
  forall v v', (forall k, v k = v' k) ->
  forall k, fold_left (merge_record F) data v k
            = fold_left (merge_record F) data v' k.
Proof.
  induction data as [|s rest IH]; intros v v' Hv k; simpl; [apply Hv|].
  apply IH. now apply merge_record_ext.
Qed.

Lemma for_loop_stored_date (data : list station) :
  forall cur n db' n',
    unique_ids cur -> for_loop F cur n data = Ok (db', n') ->
    forall k, stored_date db' k
              = fold_left (merge_record F) data (stored_date cur) k.
Proof.
  induction data as [|s rest IH]; intros cur n db' n' Hu; simpl.
  - now intros [= <- _].
  - destruct (process F cur s) as [[c o]|e] eqn:E; simpl; [|discriminate].
    intros H k. rewrite (IH c _ db' n' (process_unique_ids _ _ _ _ Hu E) H).
    apply fold_merge_ext. now apply process_stored_date with o.
Qed.

(** *** Price dates and the order of strings *)

Lemma moved_forward_refl (r : Stations.row) : moved_forward r r.
Proof. split; [apply same_station_refl | apply date_le_refl]. Qed.

Lemma moved_forward_trans (x y z : Stations.row) :
  moved_forward x y -> moved_forward y z -> moved_forward x z.
Proof.
  intros [H1 H2] [G1 G2]. split.
  - eapply same_station_trans; eassumption.
  - eapply date_le_trans; eassumption.
Qed.

Lemma upsert_moved_forward (cur cur' : database) (o : observation) (out : outcome) :
  unique_ids cur -> upsert_spec cur o cur' out -> grows moved_forward cur cur'.
Proof.
  intros Hu [Hs Hb | r Hs Hd Hb | r Hs Hd].
  - eexists (rows cur), _. split; [reflexivity|].
    apply Forall2_diag, moved_forward_refl.
  - exists (rows (apply_update cur (obs_price o) (obs_date o) (Stations.id r))), [].
    split; [now rewrite app_nil_r|]. simpl.
    apply Forall2_map_self. intros x Hx.
    destruct (Z.eqb_spec (Stations.id x) (Stations.id r)) as [Hid|];
      [|apply moved_forward_refl].
    apply select_station_Some in Hs as (Hr & _).
    assert (x = r) by (eapply NoDup_map_eq; [exact Hu| | |]; assumption).
    subst x. split; [apply same_station_set_price|].
    simpl. now apply date_lt_le.
  - apply grows_refl, moved_forward_refl.
Qed.

Lemma update_database_moved_forward
    (db db' : database) (data : list station) (n : counters) :
  unique_ids db -> update_database F db data = Ok (db', n) ->
  grows moved_forward db db'.
Proof.
  unfold update_database. intros Hu H.
  apply (for_loop_invariant
           (fun c => unique_ids c /\ grows moved_forward db c))
    with (data := data) (cur := db) (n := (0, 0, 0)%nat) (n' := n);
    [| split; [assumption | apply grows_refl, moved_forward_refl] | exact H].
  intros cur s cur' out [Hc Hg] Hp. split.
  - eapply process_unique_ids; eassumption.
  - eapply grows_trans; [apply moved_forward_trans | exact Hg |].
    apply process_inv in Hp as [(_ & -> & _) | (o & _ & Hp)].
    + apply grows_refl, moved_forward_refl.
    + eapply upsert_moved_forward; eassumption.
Qed.

Lemma ingest_moved_forward (db : database) (batches : list (list station)) :
  unique_ids db ->
  unique_ids (ingest F db batches) /\ grows moved_forward db (ingest F db batches).
Proof.
  intros Hu.
  apply (ingest_invariant (fun d => unique_ids d /\ grows moved_forward db d));
    [| split; [assumption | apply grows_refl, moved_forward_refl]].
  intros d data d' n [Hd Hg] Hrun. split.
  - eapply update_database_unique_ids; eassumption.
  - eapply grows_trans; [apply moved_forward_trans | exact Hg |].
    eapply update_database_moved_forward; eassumption.
Qed.

Lemma chain_app (a b c : option string) (l1 l2 : list string) :
  chain a l1 b -> chain b l2 c -> chain a (l1 ++ l2) c.
Proof.
  intros H1 H2. induction H1; simpl.
  - assumption.
  - apply chain_first. auto.
  - apply chain_next; auto.
Qed.

Lemma chain_from_date (l : list string) :
  forall d final, chain (Some d) l final -> final = Some (fold_left greater l d).
Proof.
  induction l as [|x l IH]; intros d final H; inversion H; subst; simpl.
  - reflexivity.
  - rewrite greater_absorb by (now apply date_lt_le). now apply IH.
Qed.

Lemma chain_greatest (start final : option string) (l : list string) :
  chain start l final -> l <> [] -> final = greatest l.
Proof.
  intros H Hl. inversion H; subst; try congruence; simpl;
    now apply chain_from_date.
Qed.

Lemma merge_date_other (v : pair -> option string) (o : observation) (k : pair) :
  same_coordinates k (obs_coordinates o) = false -> merge_date v o k = v k.
Proof. unfold merge_date. now intros ->. Qed.

Lemma loop_chain (k : pair) (data : list station) :
  forall cur n db' n',
    unique_ids cur -> for_loop F cur n data = Ok (db', n') ->
    chain (stored_date cur k) (accepted_dates F k cur data) (stored_date db' k).
Proof.
  induction data as [|s rest IH]; intros cur n db' n' Hu; simpl.
  - intros [= <- _]. apply chain_nil.
  - destruct (process F cur s) as [[c out]|e] eqn:E; simpl; [|discriminate].
    intros H.
    pose proof (IH c _ db' n' (process_unique_ids _ _ _ _ Hu E) H) as Hrest.
    apply process_inv in E as [(-> & -> & ->) | (o & -> & Hup)]; [exact Hrest|].
    pose proof (upsert_stored_date cur c o out Hu Hup k) as Hk.
    destruct Hup as [Hs Hb | r Hs Hd Hb | r Hs Hd].
    + destruct (same_coordinates k (obs_coordinates o)) eqn:Ek.
      * unfold merge_date in Hk. rewrite Ek in Hk.
        apply same_coordinates_true in Ek as [-> _].
        apply (proj2 (stored_date_none cur (obs_coordinates o))) in Hs.
        rewrite Hs in Hk |- *. rewrite Hk in Hrest. now apply chain_first.
      * rewrite merge_date_other in Hk by assumption. now rewrite <- Hk.
    + destruct (same_coordinates k (obs_coordinates o)) eqn:Ek.
      * unfold merge_date in Hk. rewrite Ek in Hk.
        apply same_coordinates_true in Ek as [-> _].
        rewrite (stored_date_select cur (obs_coordinates o) r Hs) in Hk |- *.
        rewrite greater_absorb in Hk by (now apply date_lt_le).
        rewrite Hk in Hrest. now apply chain_next.
      * rewrite merge_date_other in Hk by assumption. now rewrite <- Hk.
    + exact Hrest.
Qed.

Lemma runs_chain (k : pair) (batches : list (list station)) :
  forall db,
    unique_ids db ->
    chain (stored_date db k) (accepted_in_runs F k db batches)
          (stored_date (ingest F db batches) k).
Proof.
  induction batches as [|b bs IH]; intros db Hu; simpl.
  - apply chain_nil.
  - destruct (main_cases db b) as [(db' & n & E & Hm) | (e & E & Hm)];
      rewrite Hm, E; simpl.
    + eapply chain_app.
      * eapply loop_chain; [exact Hu | exact E].
      * apply IH. eapply update_database_unique_ids; eassumption.
    + now apply IH.
Qed.

(** [greatest] is the maximum of the list for the order of strings. *)
Lemma fold_greater_maximum (l : list string) :
  forall d,
    (fold_left greater l d = d \/ In (fold_left greater l d) l) /\
    date_le d (fold_left greater l d) /\
    (forall x, In x l -> date_le x (fold_left greater l d)).
Proof.
  induction l as [|y l IH]; intros d; simpl.
  - split; [now left|]. split; [apply date_le_refl | tauto].
  - destruct (IH (greater d y)) as (Hin & Hd & Hall).
    split; [|split].
    + destruct Hin as [Hin|Hin]; [|now right; right].
      rewrite Hin. unfold greater. destruct (d <=? y)%string; auto.
    + eapply date_le_trans; [apply greater_upper_l | exact Hd].
    + intros x [<-|Hx]; [|now apply Hall].
      eapply date_le_trans; [apply greater_upper_r | exact Hd].
Qed.

Lemma greatest_maximum (l : list string) (m : string) :
  greatest l = Some m -> In m l /\ forall x, In x l -> date_le x m.
Proof.
  destruct l as [|d l]; simpl; [discriminate|]. intros [= <-].
  destruct (fold_greater_maximum l d) as (Hin & Hd & Hall).
  split.
  - destruct Hin as [->|Hin]; auto.
  - intros x [<-|Hx]; auto.
Qed.

(** *** Running a batch again *)

Lemma covered_after_upsert (cur cur' : database) (o : observation) (out : outcome) :
  has_null (obs_coordinates o) = false ->
  unique_ids cur -> upsert_spec cur o cur' out -> covered cur' o.
Proof.
  intros Hn Hu H. unfold covered.
  rewrite (upsert_stored_date cur cur' o out Hu H). unfold merge_date.
  rewrite same_coordinates_refl by assumption. eexists. split; [reflexivity|].
  destruct (stored_date cur (obs_coordinates o));
    [apply greater_upper_r | apply date_le_refl].
Qed.

Lemma covered_preserved (cur cur' : database) (o o' : observation) (out : outcome) :
  unique_ids cur -> upsert_spec cur o' cur' out -> covered cur o -> covered cur' o.
Proof.
  intros Hu H (d & Hd & Hle). unfold covered.
  rewrite (upsert_stored_date cur cur' o' out Hu H). unfold merge_date.
  destruct (same_coordinates (obs_coordinates o) (obs_coordinates o')) eqn:E.
  - apply same_coordinates_true in E as [E _]. rewrite <- E, Hd.
    eexists. split; [reflexivity|].
    eapply date_le_trans; [exact Hle | apply greater_upper_l].
  - eauto.
Qed.

Lemma for_loop_covered (o : observation) (data : list station) :
  forall cur n db' n',
    unique_ids cur -> covered cur o ->
    for_loop F cur n data = Ok (db', n') -> covered db' o.
Proof.
  intros cur n db' n' Hu Hc H.
  apply (for_loop_invariant (fun c => unique_ids c /\ covered c o))
    with (data := data) (cur := cur) (n := n) (n' := n'); auto.
  intros c s c' out [Hc1 Hc2] Hp. split.
  - eapply process_unique_ids; eassumption.
  - apply process_inv in Hp as [(_ & -> & _) | (o' & _ & Hp)]; [assumption|].
    eapply covered_preserved; eassumption.
Qed.

(** After the loop, every record of the batch that reached the lookup
    with numbers as coordinates has a Station whose date is not smaller
    than its own. *)
Lemma for_loop_covers_batch (data : list station) :
  forall cur n db' n',
    unique_ids cur -> for_loop F cur n data = Ok (db', n') ->
    forall s, In s data ->
      exists x, normalize F s = Ok x /\
                forall o, x = Some o -> has_null (obs_coordinates o) = false ->
                          covered db' o.
Proof.
  induction data as [|s0 rest IH]; intros cur n db' n' Hu; simpl; [tauto|].
  destruct (process F cur s0) as [[c out]|e] eqn:E; simpl; [|discriminate].
  intros H s [<-|Hin].
  - pose proof (process_unique_ids _ _ _ _ Hu E) as Hc.
    apply process_inv in E as [(Hn & -> & _) | (o & Hn & Hup)].
    + exists None. split; [assumption | discriminate].
    + exists (Some o). split; [assumption|]. intros o' [= <-] Hnn.
      eapply for_loop_covered; [exact Hc | | exact H].
      eapply covered_after_upsert; [exact Hnn | exact Hu | exact Hup].
  - eapply IH; [|exact H|exact Hin]. eapply process_unique_ids; eassumption.
Qed.




(** *** Arrival order *)













End Properties.

(** ** Concrete runs

    The statements above applied to the sample records, with
    [float_literal] reading the numbers written as strings. *)

Example first_sighting :
  update_database float_literal empty_store [station_1]
  = Ok (store_1, (1, 0, 0)%nat).
Proof. reflexivity. Qed.

Example newer_price :
  update_database float_literal store_1 [station_2]
  = Ok (store_2, (0, 1, 0)%nat).
Proof. reflexivity. Qed.

Example same_day_again :
  update_database float_literal store_1 [station_1]
  = Ok (store_1, (0, 0, 1)%nat).
Proof. reflexivity. Qed.

Example other_station :
  update_database float_literal store_1 [station_3]
  = Ok (store_3, (1, 0, 0)%nat).
Proof. vm_compute. reflexivity. Qed.

Example rounding_is_the_key :
  round6 (451000004 # 10000000) = round6 (451 # 10) /\
  round6 (45100001 # 1000000) <> round6 (451 # 10).
Proof. vm_compute. split; [reflexivity | discriminate]. Qed.

(** [float] of a JSON integer: 10^19 is a float, 2^53 + 1 is rounded to
    one, 10^400 is too large; [sqlite3] binds an [int] up to 2^63 - 1. *)
Example float_of_big_integers :
  float float_literal (JInt (10 ^ 19)) = Ok (Finite (inject_Z (10 ^ 19))) /\
  float float_literal (JInt (2 ^ 53 + 1)) = Ok (Finite (inject_Z (2 ^ 53))) /\
  float float_literal (JInt (2 ^ 53 + 3)) = Ok (Finite (inject_Z (2 ^ 53 + 4))) /\
  float float_literal (JInt (- (2 ^ 1024 - 2 ^ 970 - 1)))
  = Ok (Finite (inject_Z (- (2 ^ 1024 - 2 ^ 971)))) /\
  float float_literal (JInt (2 ^ 1024 - 2 ^ 970)) = Raise OverflowError /\
  float float_literal (JInt (10 ^ 400)) = Raise OverflowError /\
  bindable (JInt (10 ^ 19)) = false /\
  bindable (JInt (2 ^ 63 - 1)) = true.
Proof. vm_compute. repeat split. Qed.

(** Whether a price that cannot be bound stops the run depends on the
    order of the records: behind a newer record for the same Station it
    is ignored before anything is bound. *)
Example binding_depends_on_the_order :
  update_database float_literal empty_store [big_price_station; station_2]
  = Raise OverflowError /\
  update_database float_literal empty_store [station_2; big_price_station]
  = Ok (mkDatabase [Stations.mkRow 1 (millionths 45100000) (millionths 8200000)
                                   (num (11 # 10)) "2024-01-02" "Main St, 10"] 1,
        (1, 0, 1)%nat).
Proof. vm_compute. split; reflexivity. Qed.

Lemma unique_ids_store_1 : unique_ids store_1.
Proof. unfold unique_ids. simpl. constructor; [intros [] | constructor]. Defined.

Lemma sql_unique_store_1 : sql_unique store_1.
Proof.
  unfold sql_unique. simpl. constructor; [intros [] | constructor].
Defined.

Lemma unique_coordinates_store_1 : unique_coordinates store_1.
Proof.
  unfold unique_coordinates. simpl. constructor; [intros [] | constructor].
Defined.








(** C2.  The date stored for a Station goes back by a thousand years:
    [store_1] holds 2024-01-01 for the Station of [station_1]; the record
    [ancient_station], dated 31/12/0999, is applied as an update, because
    [strftime] writes its year on three digits and ["999-12-31"] is
    greater than ["2024-01-01"] as a string. *)
Theorem older_date_overwrites_newer :
  strptime (price_date ancient_station) = Ok (mkDate 999 12 31) /\
  date_compare (mkDate 999 12 31) (mkDate 2024 1 1) = Lt /\
  stored_date store_1 (millionths 45100000, millionths 8200000)
  = Some (strftime (mkDate 2024 1 1)) /\
  update_database float_literal store_1 [ancient_station]
  = Ok (mkDatabase [ancient_row] 1, (0, 1, 0)%nat) /\
  stored_date (mkDatabase [ancient_row] 1) (millionths 45100000, millionths 8200000)
  = Some (strftime (mkDate 999 12 31)) /\
  strftime (mkDate 999 12 31) = "999-12-31"%string.
Proof. vm_compute. repeat split. Qed.

Lemma no_nan_sample : no_nan float_literal [station_2; low_price_station; station_3].
Proof.
  intros s o [<-|[<-|[<-|[]]]]; vm_compute; intros [= <-]; reflexivity.
Defined.

Lemma coordinates_stay_unique_witness :
  sql_unique store_1 /\
  sql_unique (ingest float_literal store_1
                     [[station_2; station_3]; [nan_station; nan_station]]) /\
  unique_coordinates store_1 /\
  (forall data, In data [[station_2; low_price_station; station_3]] ->
                no_nan float_literal data) /\
  unique_coordinates (ingest float_literal store_1
                             [[station_2; low_price_station; station_3]]) /\
  update_database float_literal store_1 [nan_station; station_2; nan_station]
  <> Raise IntegrityError.
Proof.
  assert (Hnn : forall data, In data [[station_2; low_price_station; station_3]] ->
                             no_nan float_literal data)
    by (intros data [<-|[]]; apply no_nan_sample).
  split; [apply sql_unique_store_1|].
  split; [apply (proj1 (proj2 (coordinates_stay_unique float_literal store_1
                                 sql_unique_store_1)))|].
  split; [apply unique_coordinates_store_1|]. split; [exact Hnn|].
  split.
  - exact (proj2 (proj1 (proj2 (proj2 (coordinates_stay_unique float_literal store_1
                                          sql_unique_store_1)))
                        unique_coordinates_store_1)
                 _ Hnn).
  - apply (proj2 (proj2 (proj2 (coordinates_stay_unique float_literal store_1
                                  sql_unique_store_1)))).
Defined.

(** C3, as stated, fails: a latitude that is NaN is stored as NULL, which
    the lookup never finds and [UNIQUE] lets through; the same record
    twice leaves two Stations with the same pair. *)
Lemma nan_coordinates_are_stored_twice :
  unique_coordinates empty_store /\
  update_database float_literal empty_store [nan_station; nan_station]
  = Ok (mkDatabase [nan_row 1; nan_row 2] 2, (2, 0, 0)%nat) /\
  Stations.coordinates (nan_row 1) = Stations.coordinates (nan_row 2) /\
  ~ unique_coordinates (mkDatabase [nan_row 1; nan_row 2] 2).
Proof.
  split; [constructor|]. split; [vm_compute; reflexivity|].
  split; [reflexivity|].
  unfold unique_coordinates. simpl. intros H.
  apply NoDup_cons_iff in H as [H _]. apply H. now left.
Qed.

Lemma unparseable_date_witness :
  strptime (price_date bad_date_station) = Raise ValueError /\
  main float_literal store_1 ([station_3] ++ bad_date_station :: [station_2])
  = (store_1, None).
Proof.
  split; [reflexivity|].
  apply (proj1 (proj2 (unparseable_date float_literal bad_date_station eq_refl))).
  vm_compute. discriminate.
Defined.

(** C4, as stated, fails: the run on a batch with a date in another format
    raises instead of counting the record as ignored, and commits nothing,
    not even the record that came before. *)
Lemma unparseable_date_aborts_the_run :
  price_date bad_date_station <> ""%string /\
  strptime (price_date bad_date_station) = Raise ValueError /\
  update_database float_literal empty_store
                  [station_1; bad_date_station; station_3]
  = Raise ValueError /\
  main float_literal empty_store [station_1; bad_date_station; station_3]
  = (empty_store, None).
Proof. repeat split; try reflexivity. discriminate. Qed.





Lemma update_keeps_identity_and_address_witness :
  upsert store_1 observation_2 = Ok (store_2, Updated) /\
  seq store_2 = seq store_1 /\
  Forall2 (fun r r' =>
             same_station r r' /\
             (r' = r \/
              (Stations.fuel_price r' = obs_price observation_2 /\
               Stations.price_date r' = obs_date observation_2)))
          (rows store_1) (rows store_2).
Proof.
  split; [reflexivity|].
  apply (proj1 (update_keeps_identity_and_address float_literal)
           store_1 store_2 observation_2 eq_refl).
Defined.

Lemma rejected_record_is_ignored_witness :
  (exists q, float float_literal (price low_price_station) = Ok (Finite q)
             /\ (q < 1 # 10)%Q) /\
  process float_literal store_1 low_price_station = Ok (store_1, Ignored) /\
  for_loop float_literal store_1 (0, 0, 0)%nat [low_price_station; station_2]
  = for_loop float_literal store_1 (0, 0, 1)%nat [station_2].
Proof.
  assert (H : exists q, float float_literal (price low_price_station)
                        = Ok (Finite q) /\ (q < 1 # 10)%Q)
    by (exists (5 # 100)%Q; split; reflexivity).
  split; [exact H|].
  apply (rejected_record_is_ignored float_literal low_price_station
           (or_intror (or_introl H))).
Defined.

(** C8, as stated, fails: with an empty date and a price that is neither
    empty nor a number, [float(price)] raises before the date is looked at. *)
Lemma empty_date_does_not_save_a_bad_price :
  price_date bad_price_station = ""%string /\
  process float_literal empty_store bad_price_station = Raise ValueError /\
  update_database float_literal empty_store [bad_price_station; station_1]
  = Raise ValueError.
Proof. repeat split; reflexivity. Qed.

Lemma stored_address_resolution_witness :
  (process float_literal empty_store station_2
   = Ok (mkDatabase [Stations.mkRow 1 (millionths 45100000) (millionths 8200000)
                                    (num (11 # 10)) "2024-01-02" "Main St, 10"] 1,
         Added) /\
   exists r,
     [Stations.mkRow 1 (millionths 45100000) (millionths 8200000)
                     (num (11 # 10)) "2024-01-02" "Main St, 10"]
     = rows empty_store ++ [r] /\
     Stations.address r = "Main St, 10"%string) /\
  (process float_literal store_1 station_4
   = Ok (mkDatabase [row_1; row_4 2] 2, Added) /\
   exists r,
     [row_1; row_4 2] = rows store_1 ++ [r] /\
     Stations.address r = "Main St, 10"%string) /\
  (process float_literal store_1 station_3 = Ok (store_3, Added) /\
   exists r,
     rows store_3 = rows store_1 ++ [r] /\
     exists d, address station_3 = Some d /\
       Stations.address r =
         match country d with
         | Some c =>
             (street d ++ ", " ++ postal_code d ++ ", " ++ city d ++ ", " ++ c)%string
         | None => (street d ++ ", " ++ postal_code d ++ ", " ++ city d)%string
         end) /\
  (process float_literal store_1 station_2 = Ok (store_2, Updated) /\
   map Stations.address (rows store_2) = map Stations.address (rows store_1)).
Proof.
  assert (H2 : process float_literal empty_store station_2
               = Ok (mkDatabase [Stations.mkRow 1 (millionths 45100000)
                                                (millionths 8200000) (num (11 # 10))
                                                "2024-01-02" "Main St, 10"] 1,
                     Added)) by (vm_compute; reflexivity).
  assert (H4 : process float_literal store_1 station_4
               = Ok (mkDatabase [row_1; row_4 2] 2, Added))
    by (vm_compute; reflexivity).
  assert (H3 : process float_literal store_1 station_3 = Ok (store_3, Added))
    by (vm_compute; reflexivity).
  assert (Hu : process float_literal store_1 station_2 = Ok (store_2, Updated))
    by (vm_compute; reflexivity).
  split; [split; [exact H2|]|split; [split; [exact H4|]|split; [split; [exact H3|]|split; [exact Hu|]]]].
  - exact (stored_address_resolution float_literal _ _ station_2 Added H2).
  - exact (stored_address_resolution float_literal _ _ station_4 Added H4).
  - exact (stored_address_resolution float_literal _ _ station_3 Added H3).
  - exact (stored_address_resolution float_literal _ _ station_2 Updated Hu).
Defined.

(** C9, as stated, fails: a record with an [address-compact] that is
    accepted as an update leaves the address that was stored. *)
Lemma compact_address_is_not_stored_on_update :
  address_compact station_2 = Some "Main St, 10"%string /\
  update_database float_literal store_1 [station_2] = Ok (store_2, (0, 1, 0)%nat) /\
  map Stations.address (rows store_2) = ["1 rue A, 01234, Laville"%string] /\
  ~ In "Main St, 10"%string (map Stations.address (rows store_2)).
Proof.
  repeat (split; [reflexivity|]).
  simpl. intros [H|[]]. discriminate H.
Qed.

Lemma update_database_counts_every_record_witness :
  exists db',
    update_database float_literal store_1
                    [station_1; station_2; low_price_station; station_3]
    = Ok (db', (1, 1, 2)%nat) /\
    (1 + 1 + 2)%nat
    = List.length [station_1; station_2; low_price_station; station_3].
Proof.
  eexists. split.
  - vm_compute. reflexivity.
  - eapply (update_database_counts_every_record float_literal store_1).
    vm_compute. reflexivity.
Defined.

(** * Further properties of the scripts *)

Section Further.

Variable F : string -> option pyfloat.

(** ** Exceptions of a run *)




(** ** One run or two *)

Lemma tally_add (n m : counters) (o : outcome) :
  tally (add_counters n m) o = add_counters n (tally m o).
Proof.
  destruct n as [[a u] i], m as [[b v] j], o; simpl;
    now rewrite ?Nat.add_succ_r.
Qed.

Lemma for_loop_shift (data : list station) :
  forall cur n m,
    for_loop F cur (add_counters n m) data
    = match for_loop F cur m data with
      | Ok (db', m') => Ok (db', add_counters n m')
      | Raise e => Raise e
      end.
Proof.
  induction data as [|s rest IH]; intros cur n m; simpl; [reflexivity|].
  destruct (process F cur s) as [[c o]|e]; simpl; [|reflexivity].
  rewrite tally_add. apply IH.
Qed.

Lemma add_counters_0_r (n : counters) : add_counters n (0, 0, 0)%nat = n.
Proof. destruct n as [[a u] i]. simpl. now rewrite !Nat.add_0_r. Qed.

Lemma for_loop_from (cur : database) (n : counters) (data : list station) :
  for_loop F cur n data
  = match update_database F cur data with
    | Ok (db', m) => Ok (db', add_counters n m)
    | Raise e => Raise e
    end.
Proof.
  unfold update_database. rewrite <- for_loop_shift.
  now rewrite add_counters_0_r.
Qed.

(** X2.  Ingesting a batch in one run gives the store and the counters of
    ingesting its first part and then, from the store this leaves, the rest
    of it, the counters being added; and the one run returns exactly when
    both of the two runs return. *)
Theorem one_run_or_two
    (db db2 : database) (d1 d2 : list station) (n : counters) :
  update_database F db (d1 ++ d2) = Ok (db2, n) <->
  exists db1 n1 n2,
    update_database F db d1 = Ok (db1, n1) /\
    update_database F db1 d2 = Ok (db2, n2) /\
    n = add_counters n1 n2.
Proof.
  unfold update_database at 1. rewrite for_loop_app. unfold bind.
  fold (update_database F db d1).
  destruct (update_database F db d1) as [[db1 n1]|e] eqn:E1; simpl.
  - rewrite for_loop_from.
    destruct (update_database F db1 d2) as [[db2' n2]|e] eqn:E2; split.
    + intros [= <- <-]. now exists db1, n1, n2.
    + intros (x & m1 & m2 & [= <- <-] & H2 & ->).
      rewrite E2 in H2. now injection H2 as <- <-.
    + discriminate.
    + intros (x & m1 & m2 & [= <- <-] & H2 & _). congruence.
  - split; [discriminate|]. intros (x & m1 & m2 & H & _). discriminate.
Qed.

(** ** What the counters say about the store *)

Lemma for_loop_counters_grow (data : list station) :
  forall cur a u i db' a' u' i',
    for_loop F cur (a, u, i) data = Ok (db', (a', u', i')) ->
    (a <= a' /\ u <= u')%nat.
Proof.
  induction data as [|s rest IH]; intros cur a u i db' a' u' i'; simpl.
  - intros [= _ <- <- _]. lia.
  - destruct (process F cur s) as [[c o]|e]; simpl; [|discriminate].
    intros H. destruct o; apply IH in H; lia.
Qed.

Lemma for_loop_only_ignored (data : list station) :
  forall cur a u i db' i',
    for_loop F cur (a, u, i) data = Ok (db', (a, u, i')) -> db' = cur.
Proof.
  induction data as [|s rest IH]; intros cur a u i db' i'; simpl.
  - now intros [= <- _].
  - destruct (process F cur s) as [[c o]|e] eqn:E; simpl; [|discriminate].
    intros H. destruct o.
    + apply for_loop_counters_grow in H. lia.
    + apply for_loop_counters_grow in H. lia.
    + apply IH in H. subst db'.
      apply process_inv in E as [(_ & -> & _) | (ob & _ & Hup)]; [reflexivity|].
      now inversion Hup.
Qed.

(** X3.  When a run reports no record added and none updated, the store it
    commits is the store it started from. *)
Theorem nothing_reported_nothing_changed
    (db db' : database) (data : list station) (n_ignored : nat) :
  update_database F db data = Ok (db', (0, 0, n_ignored)%nat) -> db' = db.
Proof. unfold update_database. apply for_loop_only_ignored. Qed.

(** ** The ids of the inserted Stations *)

Lemma fold_right_max_bound (m : Z) (l : list Z) :
  (forall x, In x l -> x <= m) -> fold_right Z.max m l = m.
Proof.
  induction l as [|x l IH]; intros H; cbn [fold_right]; [reflexivity|].
  rewrite IH by (intros y Hy; apply H; now right).
  apply Z.max_r, H. now left.
Qed.

Lemma next_id_update (cur : database) (p : jvalue) (d : string) (i : Z) :
  next_id (apply_update cur p d i) = next_id cur.
Proof. unfold next_id. cbn [rows seq apply_update]. now rewrite ids_set_price. Qed.

Lemma next_id_insert (cur : database) (o : observation) :
  next_id (mkDatabase (rows cur ++ [new_row (next_id cur) o]) (next_id cur))
  = next_id cur + 1.
Proof.
  unfold next_id at 1. cbn [rows seq].
  rewrite map_app, fold_right_app. cbn [map fold_right new_row Stations.id].
  rewrite Z.max_id, fold_right_max_bound; [lia|].
  intros x Hx. apply in_map_iff in Hx as (r & <- & Hr).
  apply next_id_fresh in Hr. lia.
Qed.

Lemma for_loop_ids (data : list station) :
  forall cur a u i db' a' u' i',
    for_loop F cur (a, u, i) data = Ok (db', (a', u', i')) ->
    exists olds news,
      rows db' = olds ++ news /\
      map Stations.id olds = map Stations.id (rows cur) /\
      map Stations.id news
      = map (fun j => next_id cur + Z.of_nat j) (List.seq 0 (a' - a)) /\
      next_id db' = next_id cur + Z.of_nat (a' - a).
Proof.
  induction data as [|s rest IH]; intros cur a u i db' a' u' i'; simpl.
  - intros [= <- <- _ _]. exists (rows cur), [].
    rewrite app_nil_r, Nat.sub_diag. simpl. repeat split; auto. lia.
  - destruct (process F cur s) as [[c out]|e] eqn:E; simpl; [|discriminate].
    intros H.
    apply process_inv in E as [(_ & -> & ->) | (o & _ & Hup)];
      [now apply IH in H|].
    destruct Hup as [Hs Hb | r Hs Hd Hb | r Hs Hd]; simpl in H.
    + pose proof (for_loop_counters_grow _ _ _ _ _ _ _ _ _ H) as [Ha _].
      apply IH in H as (olds & news & Hrows & Hold & Hnew & Hnext).
      cbn [rows] in Hold. rewrite map_app in Hold.
      apply map_eq_app in Hold as (o1 & o2 & -> & Ho1 & Ho2).
      exists o1, (o2 ++ news). rewrite next_id_insert in Hnew, Hnext.
      replace (a' - a)%nat with (S (a' - S a)) by lia.
      split; [now rewrite Hrows, app_assoc|]. split; [assumption|]. split.
      * rewrite map_app, Ho2, Hnew. cbn [map List.seq app new_row Stations.id].
        rewrite Z.add_0_r. f_equal.
        rewrite <- seq_shift, map_map. apply map_ext. intros j. lia.
      * lia.
    + apply IH in H as (olds & news & Hrows & Hold & Hnew & Hnext).
      rewrite next_id_update in Hnew, Hnext.
      cbn [rows apply_update] in Hold. rewrite ids_set_price in Hold.
      now exists olds, news.
    + now apply IH in H.
Qed.

(** X4.  The Stations a run inserts come after the rows that were there,
    whose ids are untouched, and receive consecutive ids that start right
    above every id in use and the [AUTOINCREMENT] counter; there are
    [n_added] of them. *)
Theorem inserted_ids_are_consecutive
    (db db' : database) (data : list station) (n_added n_updated n_ignored : nat) :
  update_database F db data = Ok (db', (n_added, n_updated, n_ignored)) ->
  exists olds news,
    rows db' = olds ++ news /\
    map Stations.id olds = map Stations.id (rows db) /\
    map Stations.id news
    = map (fun j => next_id db + Z.of_nat j) (List.seq 0 n_added) /\
    (forall r, In r (rows db) -> Stations.id r < next_id db) /\
    seq db < next_id db.
Proof.
  unfold update_database. intros H.
  apply for_loop_ids in H as (olds & news & Hrows & Hold & Hnew & _).
  rewrite Nat.sub_0_r in Hnew.
  exists olds, news. repeat split; auto using next_id_fresh, next_id_seq.
Qed.

(** ** The greatest date wins *)

Lemma fold_merge_greatest (k : pair) (data : list station) :
  forall v,
    fold_left (merge_record F) data v k
    = greatest (match v k with Some d => [d] | None => [] end
              ++ dates_for F k data).
Proof.
  induction data as [|s rest IH]; intros v; simpl.
  - destruct (v k); reflexivity.
  - rewrite IH. unfold merge_record.
    destruct (normalize F s) as [[o|]|e]; try reflexivity.
    unfold merge_date.
    destruct (same_coordinates k (obs_coordinates o)) eqn:E; [|reflexivity].
    apply same_coordinates_true in E as [-> _].
    destruct (v (obs_coordinates o)); reflexivity.
Qed.

(** X5.  After a run that returns, on a store where ids identify rows, the
    date stored for a coordinate pair is the greatest, in the order of
    strings that line 131 compares them by, among the date stored before
    (if the pair had a Station) and the dates of all the records of the
    batch with this pair that are not skipped; the pair has no Station
    exactly when there is no such date at all.  (Under a pair with a NULL
    nothing is ever found.) *)
Theorem greatest_date_wins
    (db db' : database) (data : list station) (n : counters) (k : pair) :
  unique_ids db ->
  update_database F db data = Ok (db', n) ->
  stored_date db' k = greatest (stored_dates db k ++ dates_for F k data).
Proof.
  unfold update_database, stored_dates. intros Hu H.
  rewrite (for_loop_stored_date F data db _ db' n Hu H).
  apply fold_merge_greatest.
Qed.

(** ** Where a stored price comes from *)

Lemma upsert_sources (cur cur' : database) (s : station) (o : observation)
    (out : outcome) :
  unique_ids cur -> normalize F s = Ok (Some o) -> upsert_spec cur o cur' out ->
  forall r', In r' (rows cur') -> In r' (rows cur) \/ written_by F s r'.
Proof.
  intros Hu Hn [Hs Hb | r Hs Hd Hb | r Hs Hd] r' Hin.
  - cbn [rows] in Hin. apply in_app_or in Hin as [Hin|[<-|[]]]; [now left|].
    right. exists o. now repeat split.
  - cbn [rows apply_update] in Hin.
    apply in_map_iff in Hin as (x & <- & Hx).
    destruct (Z.eqb_spec (Stations.id x) (Stations.id r)) as [Hid|]; [|now left].
    apply select_station_Some in Hs as (Hr & Hc & _).
    assert (x = r) by (eapply NoDup_map_eq; [exact Hu| | |]; assumption).
    subst x. right. exists o. now repeat split.
  - now left.
Qed.

Lemma for_loop_sources (data : list station) :
  forall cur n db' n',
    unique_ids cur -> for_loop F cur n data = Ok (db', n') ->
    forall r', In r' (rows db') ->
      In r' (rows cur) \/ exists s, In s data /\ written_by F s r'.
Proof.
  induction data as [|s rest IH]; intros cur n db' n' Hu; simpl.
  - intros [= <- _] r' Hin. now left.
  - destruct (process F cur s) as [[c out]|e] eqn:E; simpl; [|discriminate].
    intros H r' Hin.
    pose proof (process_unique_ids F _ _ _ _ Hu E) as Hc.
    destruct (IH c _ db' n' Hc H r' Hin) as [Hin'|(s' & Hs' & Hw)].
    + apply process_inv in E as [(_ & -> & _) | (o & Hn & Hup)]; [now left|].
      destruct (upsert_sources cur c s o out Hu Hn Hup r' Hin') as [?|?]; eauto.
    + right. exists s'. split; [now right | assumption].
Qed.

(** X6.  On a store where ids identify rows, every row of the store a run
    leaves is a row it started with, untouched, or carries the coordinates
    of a record of the batch together with the price and the date of
    that same record: a stored price and its date always come from one
    record, read for that Station. *)
Theorem price_and_date_come_together
    (db db' : database) (data : list station) (n : counters)
    (r' : Stations.row) :
  unique_ids db ->
  update_database F db data = Ok (db', n) ->
  In r' (rows db') ->
  In r' (rows db) \/ exists s, In s data /\ written_by F s r'.
Proof.
  unfold update_database. intros Hu H.
  eapply for_loop_sources; eassumption.
Qed.

(** ** Stored dates are dates *)

Lemma strptime_day_exists (s : string) (d : date) :
  strptime s = Ok d -> day d <= days_in_month (year d) (month d).
Proof.
  unfold strptime.
  destruct (split_slash s) as [|fd [|fm [|fy [|x l]]]]; try discriminate.
  destruct (day_field fd) as [dd|]; [|discriminate].
  destruct (month_field fm) as [mm|]; [|discriminate].
  destruct (year_field fy) as [yy|]; [|discriminate].
  destruct (1 <=? yy); [|discriminate].
  destruct (Z.leb_spec dd (days_in_month yy mm)); [|discriminate].
  cbn [andb]. intros Heq.
  assert (Hd : d = mkDate yy mm dd) by congruence. now subst d.
Qed.

Lemma normalize_date (s : station) (o : observation) :
  normalize F s = Ok (Some o) ->
  exists d, strptime (price_date s) = Ok d /\ obs_date o = strftime d.
Proof.
  unfold normalize, bind.
  destruct (skip_entry F s) as [[|]|]; try discriminate.
  destruct (resolve_address s) as [a|]; try discriminate.
  destruct (float F (latitude s)); try discriminate.
  destruct (float F (longitude s)); try discriminate.
  destruct (strptime (price_date s)) as [d|]; try discriminate.
  intros [= <-]. now exists d.
Qed.

Lemma normalize_strftime_date (s : station) (o : observation) :
  normalize F s = Ok (Some o) -> strftime_date (obs_date o).
Proof.
  intros H. apply normalize_date in H as (d & Hd & ->).
  exists d. split; [now apply strptime_range with (price_date s)|].
  split; [now apply strptime_day_exists with (price_date s) | reflexivity].
Qed.

Lemma process_strftime_dates (cur cur' : database) (s : station) (out : outcome) :
  Forall (fun r => strftime_date (Stations.price_date r)) (rows cur) ->
  process F cur s = Ok (cur', out) ->
  Forall (fun r => strftime_date (Stations.price_date r)) (rows cur').
Proof.
  intros Hall H.
  apply process_inv in H as [(_ & -> & _) | (o & Hn & Hup)]; [assumption|].
  apply normalize_strftime_date in Hn.
  destruct Hup as [Hs Hb | r Hs Hd Hb | r Hs Hd]; cbn [rows apply_update].
  - apply Forall_app. split; [assumption|]. now repeat constructor.
  - apply Forall_map. eapply Forall_impl; [|exact Hall].
    intros x Hx. now destruct (Stations.id x =? Stations.id r).
  - assumption.
Qed.

(** X7.  A run only writes dates of days that exist (year 1 to 9999, month
    1 to 12, day within the month), each as [strftime] writes it: the year
    without padding, month and day on two digits.  A store whose dates are
    all of this kind is still so after any run that returns. *)
Theorem stored_dates_come_from_strftime
    (db db' : database) (data : list station) (n : counters) :
  Forall (fun r => strftime_date (Stations.price_date r)) (rows db) ->
  update_database F db data = Ok (db', n) ->
  Forall (fun r => strftime_date (Stations.price_date r)) (rows db').
Proof.
  unfold update_database. intros Hall H.
  eapply (for_loop_invariant F
            (fun c => Forall (fun r => strftime_date (Stations.price_date r)) (rows c)));
    [|exact Hall|exact H].
  intros cur s cur' out. apply process_strftime_dates.
Qed.

(** ** Stored dates never go down in the order of strings *)

(** X8.  In a store where ids identify rows, over any sequence of runs and
    for the order of strings that line 131 compares dates by (the order of
    the calendar when all years have four digits): every Station stays in
    place with a [price_date] that is not smaller than the one it had; an
    update is applied only when the incoming date is strictly greater than
    the stored one; for every coordinate pair the accepted dates form a
    strictly increasing sequence that starts above the date stored at
    first and ends at the date stored at last, so that, when some date
    was accepted, the stored [price_date] is the greatest of the accepted
    dates: one of them, and not smaller than any of them. *)
Theorem price_date_grows_as_a_string
    (db : database) (batches : list (list station)) (Hids : unique_ids db) :
  grows moved_forward db (ingest F db batches) /\
  (forall cur cur' s,
      process F cur s = Ok (cur', Updated) ->
      exists o r,
        normalize F s = Ok (Some o) /\
        select_station cur (obs_latitude o) (obs_longitude o) = Some r /\
        date_lt (Stations.price_date r) (obs_date o)) /\
  (forall k,
      chain (stored_date db k) (accepted_in_runs F k db batches)
            (stored_date (ingest F db batches) k)) /\
  (forall k,
      accepted_in_runs F k db batches <> [] ->
      stored_date (ingest F db batches) k
      = greatest (accepted_in_runs F k db batches) /\
      exists m,
        stored_date (ingest F db batches) k = Some m /\
        In m (accepted_in_runs F k db batches) /\
        forall d, In d (accepted_in_runs F k db batches) -> date_le d m).
Proof.
  split; [|split; [|split]].
  - now apply ingest_moved_forward.
  - intros cur cur' s H.
    apply process_inv in H as [(_ & _ & [=]) | (o & Hn & Hup)].
    inversion Hup; subst. eauto.
  - intros k. now apply runs_chain.
  - intros k Hk.
    assert (Hl : stored_date (ingest F db batches) k
                 = greatest (accepted_in_runs F k db batches))
      by (eapply chain_greatest; [|exact Hk]; now apply runs_chain).
    split; [exact Hl|].
    destruct (greatest (accepted_in_runs F k db batches)) as [m|] eqn:Em.
    + exists m. split; [exact Hl|]. now apply greatest_maximum.
    + destruct (accepted_in_runs F k db batches); [congruence | discriminate].
Qed.

(** ** Records with a NaN coordinate *)


(** ** Records that fail, records that are found again *)

(** X16.  One record that cannot be read, anywhere in the batch, makes
    the run raise and voids the whole batch: nothing is committed, not even
    for the records that come before it. *)
Theorem one_bad_record_voids_the_batch
    (db : database) (data : list station) (s : station) (e : exn) :
  In s data ->
  normalize F s = Raise e ->
  (exists e', update_database F db data = Raise e') /\
  main F db data = (db, None).
Proof.
  intros Hin Hs.
  assert (H : exists e', update_database F db data = Raise e').
  { destruct (update_database F db data) as [r|e'] eqn:E; [|eauto].
    exfalso.
    assert (Hall : Forall (readable F) data)
      by (apply (for_loop_returns F data db (0, 0, 0)%nat); eauto).
    rewrite Forall_forall in Hall. destruct (Hall s Hin) as (y & Hy). congruence. }
  split; [exact H|]. destruct H as (e' & H). unfold main. now rewrite H.
Qed.

(** X17.  After a run that returns, on a store where ids identify rows,
    every record of the batch that was not skipped and whose coordinates
    are numbers finds a Station under its rounded coordinates, and the
    date of that Station is not smaller than the record's own. *)
Theorem every_record_finds_its_station
    (db db' : database) (data : list station) (n : counters)
    (s : station) (o : observation) :
  unique_ids db ->
  update_database F db data = Ok (db', n) ->
  In s data ->
  normalize F s = Ok (Some o) ->
  has_null (obs_coordinates o) = false ->
  exists r,
    select_station db' (obs_latitude o) (obs_longitude o) = Some r /\
    In r (rows db') /\
    Stations.coordinates r = (obs_latitude o, obs_longitude o) /\
    date_le (obs_date o) (Stations.price_date r).
Proof.
  unfold update_database. intros Hu Hrun Hin Hn Hnn.
  destruct (for_loop_covers_batch F data db _ db' n Hu Hrun s Hin)
    as (x & Hx & Hcov).
  assert (x = Some o) by congruence. subst x.
  destruct (Hcov o eq_refl Hnn) as (d & Hd & Hle).
  unfold stored_date in Hd. cbn [fst snd obs_coordinates] in Hd.
  destruct (select_station db' (obs_latitude o) (obs_longitude o)) as [r|] eqn:E;
    [|discriminate].
  injection Hd as <-. exists r. split; [reflexivity|].
  apply select_station_Some in E as (Hr & Hc & _). auto.
Qed.

(** ** The coordinates used as key *)

Lemma round_half_even_near (q : Q) :
  - Zpos (Qden q)
  <= 2 * (Qnum q - round_half_even q * Zpos (Qden q))
  <= Zpos (Qden q).
Proof.
  unfold round_half_even.
  set (n := Qnum q). set (d := Zpos (Qden q)).
  pose proof (Z.div_mod n d ltac:(subst d; lia)) as Hdm.
  pose proof (Z.mod_pos_bound n d ltac:(subst d; lia)) as Hb.
  destruct (Z.compare_spec (2 * (n mod d)) d);
    [destruct (Z.even (n / d))| |]; nia.
Qed.

Lemma round_half_even_unique (q : Q) (z : Z) :
  - Zpos (Qden q) < 2 * (Qnum q - z * Zpos (Qden q)) < Zpos (Qden q) ->
  round_half_even q = z.
Proof.
  intros H. pose proof (round_half_even_near q) as Hn.
  assert (0 < Zpos (Qden q)) by lia. nia.
Qed.

Lemma round6_near (q : Q) :
  (inject_Z (round6 q) - (1 # 2) <= q * (1000000 # 1)
   <= inject_Z (round6 q) + (1 # 2))%Q.
Proof.
  unfold round6.
  pose proof (round_half_even_near (q * (1000000 # 1))) as H.
  set (p := (q * (1000000 # 1))%Q) in *.
  unfold Qle, Qminus, Qplus, Qopp, inject_Z. cbn [Qnum Qden].
  rewrite ?Pos2Z.inj_mul. nia.
Qed.

Lemma round6_unique (q : Q) (z : Z) :
  (inject_Z z - (1 # 2) < q * (1000000 # 1) < inject_Z z + (1 # 2))%Q ->
  round6 q = z.
Proof.
  unfold round6. set (p := (q * (1000000 # 1))%Q). intros H.
  apply round_half_even_unique. revert H.
  unfold Qlt, Qminus, Qplus, Qopp, inject_Z. cbn [Qnum Qden].
  rewrite ?Pos2Z.inj_mul. nia.
Qed.

Lemma normalize_coordinates (s : station) (o : observation) (la lo : pyfloat) :
  normalize F s = Ok (Some o) ->
  float F (latitude s) = Ok la -> float F (longitude s) = Ok lo ->
  obs_latitude o = rounded la /\ obs_longitude o = rounded lo.
Proof.
  unfold normalize, bind. intros H Hla Hlo. rewrite Hla, Hlo in H.
  destruct (skip_entry F s) as [[|]|]; try discriminate.
  destruct (resolve_address s) as [a|]; try discriminate.
  destruct (strptime (price_date s)) as [d|]; try discriminate.
  injection H as <-. now split.
Qed.

(** X9.  The latitude and the longitude under which a record is looked up
    and stored, when they are numbers, are whole numbers of millionths of
    a degree within half a millionth of the raw values; and a raw value
    strictly within half a millionth of a whole number of millionths gets
    exactly that number, so that two such records meet on one Station. *)
Theorem coordinates_are_rounded_to_nearest
    (s : station) (o : observation) (la lo : Q) :
  normalize F s = Ok (Some o) ->
  float F (latitude s) = Ok (Finite la) ->
  float F (longitude s) = Ok (Finite lo) ->
  exists zla zlo,
    obs_latitude o = Some (Stations.Millionths zla) /\
    obs_longitude o = Some (Stations.Millionths zlo) /\
    (inject_Z zla - (1 # 2) <= la * (1000000 # 1) <= inject_Z zla + (1 # 2))%Q /\
    (inject_Z zlo - (1 # 2) <= lo * (1000000 # 1) <= inject_Z zlo + (1 # 2))%Q /\
    (forall z, (inject_Z z - (1 # 2) < la * (1000000 # 1) < inject_Z z + (1 # 2))%Q ->
               zla = z) /\
    (forall z, (inject_Z z - (1 # 2) < lo * (1000000 # 1) < inject_Z z + (1 # 2))%Q ->
               zlo = z).
Proof.
  intros Hn Hla Hlo.
  destruct (normalize_coordinates s o _ _ Hn Hla Hlo) as [-> ->].
  exists (round6 la), (round6 lo).
  split; [reflexivity|]. split; [reflexivity|].
  split; [apply round6_near|]. split; [apply round6_near|].
  split; intros z Hz; now apply round6_unique.
Qed.

(** ** The script that creates the store *)

(** X10.  Running [create-database.py] a second time changes nothing and
    ends as the first run ended; and a run never alters a table that is
    already there: the rows of [Stations] and of [Distances] found in
    [stations.db] are still its rows afterwards. *)
Theorem create_database_is_idempotent (d : db_dir) :
  CreateDatabase.main (fst (CreateDatabase.main d)) = CreateDatabase.main d /\
  (forall f,
      d = IsDir (IsFile f) ->
      exists f',
        CreateDatabase.main d = (IsDir (IsFile f'), None) /\
        (forall t, stations_table f = Some t -> stations_table f' = Some t) /\
        (forall t, distances_table f = Some t -> distances_table f' = Some t)).
Proof.
  split.
  - destruct d as [| |[| |[[st|] [di|]]]]; reflexivity.
  - intros f ->. exists (CreateDatabase.create_tables f).
    split; [reflexivity|].
    split; intros t Ht; unfold CreateDatabase.create_tables; cbn; now rewrite Ht.
Qed.

(** ** The script that fills the store *)

Variable json_load : string -> option (list station).

Lemma for_loop_without_table_counts (data : list station) :
  forall i n,
    AddToDatabase.for_loop_without_table F i data = Done n ->
    n = (i + List.length data)%nat /\
    Forall (fun s => normalize F s = Ok None) data.
Proof.
  induction data as [|s rest IH]; intros i n; simpl.
  - intros [= <-]. split; [lia | constructor].
  - destruct (normalize F s) as [[o|]|e] eqn:E; try discriminate.
    intros H. apply IH in H as [-> Hall]. split; [lia | now constructor].
Qed.

Lemma update_database_in_cases (f f' : sqlite_file) (data : list station)
    (n : counters) :
  AddToDatabase.update_database_in F f data = Done (f', n) ->
  distances_table f' = distances_table f /\
  ((exists db db',
       stations_table f = Some db /\ stations_table f' = Some db' /\
       update_database F db data = Ok (db', n)) \/
   (stations_table f = None /\ f' = f /\
    n = (0, 0, List.length data)%nat /\
    Forall (fun s => normalize F s = Ok None) data)).
Proof.
  unfold AddToDatabase.update_database_in.
  destruct (stations_table f) as [db|] eqn:Et.
  - destruct (update_database F db data) as [[db' m]|e] eqn:E; [|discriminate].
    intros [= <- <-]. split; [reflexivity|]. left. now exists db, db'.
  - destruct (AddToDatabase.for_loop_without_table F 0 data) as [i|e] eqn:E;
      [|discriminate].
    intros [= <- <-]. split; [reflexivity|]. right.
    apply for_loop_without_table_counts in E as [-> Hall]. auto.
Qed.

(** X11.  [add-to-database.py] finds the store exactly when
    [create-database.py], run before it, ended without exception; it then
    never stops on a missing table ([OperationalError]) nor on the
    uniqueness constraint ([IntegrityError]).  When [create-database.py]
    failed, [add-to-database.py] prints the hint and changes nothing. *)
Theorem after_create_database (d : db_dir) (j : AddToDatabase.json_file) :
  let d1 := fst (CreateDatabase.main d) in
  (snd (CreateDatabase.main d) = None ->
   AddToDatabase.open_database d1 <> None /\
   snd (AddToDatabase.main F json_load d1 j) <> Failed OperationalError /\
   snd (AddToDatabase.main F json_load d1 j) <> Failed (Uncaught IntegrityError)) /\
  (snd (CreateDatabase.main d) <> None ->
   AddToDatabase.main F json_load d1 j = (d1, Done AddToDatabase.cannot_find)).
Proof.
  cbv zeta. split.
  - intros Hok.
    assert (Hf : exists f db, fst (CreateDatabase.main d) = IsDir (IsFile f)
                              /\ stations_table f = Some db).
    { destruct d as [| |[| |[[st|] di]]]; cbn in Hok |- *; try discriminate;
        do 2 eexists; split; reflexivity. }
    destruct Hf as (f & db & -> & Ht).
    split; [discriminate|].
    unfold AddToDatabase.main, AddToDatabase.update_database_in. cbn.
    rewrite Ht.
    destruct (AddToDatabase.load_json json_load j) as [data|e] eqn:El; cbn.
    + destruct (update_database F db data) as [[db' n]|e] eqn:E; cbn.
      * split; discriminate.
      * apply for_loop_raises in E.
        split; intros [=]; destruct E as [E|[E|E]]; congruence.
    + destruct j as [|text]; cbn in El; [|destruct (json_load text)];
        injection El as <- || discriminate El; split; discriminate.
  - intros Hfail.
    destruct d as [| |[| |f]]; cbn in Hfail |- *; try congruence; reflexivity.
Qed.

(** X12.  Whatever the outcome, [add-to-database.py] leaves the layout of
    the store as it found it: it creates no directory, no file and no
    table, drops none, and never touches [Distances]; and when it ends on
    an exception the store is exactly as before. *)
Theorem add_to_database_keeps_the_layout
    (d : db_dir) (j : AddToDatabase.json_file) :
  let d' := fst (AddToDatabase.main F json_load d j) in
  (AddToDatabase.open_database d = None -> d' = d) /\
  (forall f, AddToDatabase.open_database d = Some f ->
     exists f',
       d' = IsDir (IsFile f') /\
       distances_table f' = distances_table f /\
       (stations_table f' = None <-> stations_table f = None)) /\
  (forall e, snd (AddToDatabase.main F json_load d j) = Failed e -> d' = d).
Proof.
  cbv zeta. unfold AddToDatabase.main. split; [|split].
  - now intros ->.
  - intros f Hf. rewrite Hf.
    assert (d = IsDir (IsFile f))
      by (destruct d as [| |[| |f0]]; cbn in Hf; congruence).
    subst d.
    destruct (AddToDatabase.load_json json_load j) as [data|e]; cbn;
      [|exists f; repeat split; auto].
    destruct (AddToDatabase.update_database_in F f data) as [[f' n]|e] eqn:E; cbn;
      [|exists f; repeat split; auto].
    exists f'. split; [reflexivity|].
    apply update_database_in_cases in E
      as [Hd [(db & db' & Ht & Ht' & _) | (Ht & -> & _)]].
    + split; [assumption|]. rewrite Ht, Ht'. split; discriminate.
    + split; [reflexivity | tauto].
  - intros e.
    destruct (AddToDatabase.open_database d) as [f|]; [|discriminate].
    destruct (AddToDatabase.load_json json_load j) as [data|e']; [|reflexivity].
    destruct (AddToDatabase.update_database_in F f data) as [[f' n]|e'];
      [discriminate | reflexivity].
Qed.

(** X13.  The line [add-to-database.py] prints is either the hint that the
    store is missing, printed exactly when [stations.db] is not an existing
    file, or the feedback line, whose number of entries is the number of
    records loaded and equals the sum of the three counters it shows. *)
Theorem feedback_adds_up
    (d d' : db_dir) (j : AddToDatabase.json_file) (line : string) :
  AddToDatabase.main F json_load d j = (d', Done line) ->
  (AddToDatabase.open_database d = None /\ line = AddToDatabase.cannot_find) \/
  (AddToDatabase.open_database d <> None /\
   exists data n_added n_updated n_ignored,
     AddToDatabase.load_json json_load j = Done data /\
     line = AddToDatabase.feedback (List.length data)
                                   (n_added, n_updated, n_ignored) /\
     (n_added + n_updated + n_ignored)%nat = List.length data).
Proof.
  unfold AddToDatabase.main.
  destruct (AddToDatabase.open_database d) as [f|]; [|intros [= _ <-]; now left].
  destruct (AddToDatabase.load_json json_load j) as [data|e]; [|discriminate].
  destruct (AddToDatabase.update_database_in F f data) as [[f' [[a u] i]]|e] eqn:E;
    [|discriminate].
  intros [= _ <-]. right. split; [discriminate|].
  exists data, a, u, i. split; [reflexivity|]. split; [reflexivity|].
  apply update_database_in_cases in E
    as [_ [(db & db' & _ & _ & Hrun) | (_ & _ & Hn & _)]].
  - unfold update_database in Hrun. apply for_loop_counts in Hrun. lia.
  - injection Hn as -> -> ->. reflexivity.
Qed.

(** X14.  A file [stations.db] without the table [Stations] passes the
    check of [open_database].  The run then ends on [OperationalError] at
    the first record that reaches the lookup, if the records before it are
    all skipped, and commits nothing; a batch whose records are all skipped
    goes through and is reported as skipped. *)
Theorem store_without_table
    (f : sqlite_file) (text : string) (data : list station) :
  stations_table f = None ->
  json_load text = Some data ->
  (Forall (fun s => normalize F s = Ok None) data ->
   AddToDatabase.main F json_load (IsDir (IsFile f)) (AddToDatabase.Json text)
   = (IsDir (IsFile f),
      Done (AddToDatabase.feedback (List.length data)
                                   (0, 0, List.length data)%nat))) /\
  (forall pre s o post,
      data = pre ++ s :: post ->
      Forall (fun x => normalize F x = Ok None) pre ->
      normalize F s = Ok (Some o) ->
      AddToDatabase.main F json_load (IsDir (IsFile f)) (AddToDatabase.Json text)
      = (IsDir (IsFile f), Failed OperationalError)).
Proof.
  intros Ht Hl.
  assert (Hskip : forall l i,
             Forall (fun s => normalize F s = Ok None) l ->
             forall rest,
               AddToDatabase.for_loop_without_table F i (l ++ rest)
               = AddToDatabase.for_loop_without_table F (i + List.length l) rest).
  { induction l as [|x l IH]; intros i Hall rest; simpl.
    - now rewrite Nat.add_0_r.
    - inversion Hall as [|? ? Hx Hl']; subst. rewrite Hx, IH by assumption.
      f_equal. lia. }
  unfold AddToDatabase.main, AddToDatabase.update_database_in. cbn.
  rewrite Hl, Ht. split.
  - intros Hall. pose proof (Hskip data 0%nat Hall []) as H.
    rewrite app_nil_r in H. rewrite H. reflexivity.
  - intros pre s o post -> Hpre Hs.
    rewrite (Hskip pre 0%nat Hpre). simpl. now rewrite Hs.
Qed.

End Further.

(** ** Concrete runs of the further properties *)


Lemma nothing_reported_nothing_changed_witness :
  exists db',
    update_database float_literal store_1 [station_1; low_price_station]
    = Ok (db', (0, 0, 2)%nat) /\
    db' = store_1.
Proof.
  eexists. split.
  - vm_compute. reflexivity.
  - eapply (nothing_reported_nothing_changed float_literal store_1 _
              [station_1; low_price_station] 2).
    vm_compute. reflexivity.
Defined.

Lemma inserted_ids_are_consecutive_witness :
  update_database float_literal store_1 [station_2; station_3]
  = Ok (store_4, (1, 1, 0)%nat) /\
  exists olds news,
    rows store_4 = olds ++ news /\
    map Stations.id olds = map Stations.id (rows store_1) /\
    map Stations.id news
    = map (fun j => next_id store_1 + Z.of_nat j) (List.seq 0 1) /\
    (forall r, In r (rows store_1) -> Stations.id r < next_id store_1) /\
    seq store_1 < next_id store_1.
Proof.
  split; [vm_compute; reflexivity|].
  apply (inserted_ids_are_consecutive float_literal store_1 store_4
           [station_2; station_3] 1 1 0).
  vm_compute. reflexivity.
Defined.

Lemma greatest_date_wins_witness :
  unique_ids store_1 /\
  update_database float_literal store_1 [station_2; station_1; station_3]
  = Ok (store_4, (1, 1, 1)%nat) /\
  stored_date store_4 (millionths 45100000, millionths 8200000)
  = greatest (stored_dates store_1 (millionths 45100000, millionths 8200000)
            ++ dates_for float_literal (millionths 45100000, millionths 8200000)
                         [station_2; station_1; station_3]).
Proof.
  split; [apply unique_ids_store_1|].
  assert (H : update_database float_literal store_1
                              [station_2; station_1; station_3]
              = Ok (store_4, (1, 1, 1)%nat)) by (vm_compute; reflexivity).
  split; [exact H|].
  exact (greatest_date_wins float_literal store_1 store_4 _ _
           (millionths 45100000, millionths 8200000) unique_ids_store_1 H).
Defined.

Lemma price_and_date_come_together_witness :
  unique_ids store_1 /\
  update_database float_literal store_1 [station_2; station_3]
  = Ok (store_4, (1, 1, 0)%nat) /\
  In row_2 (rows store_4) /\
  (In row_2 (rows store_1) \/
   exists s, In s [station_2; station_3] /\ written_by float_literal s row_2).
Proof.
  split; [apply unique_ids_store_1|].
  assert (H : update_database float_literal store_1 [station_2; station_3]
              = Ok (store_4, (1, 1, 0)%nat)) by (vm_compute; reflexivity).
  assert (Hin : In row_2 (rows store_4)) by (simpl; now left).
  split; [exact H|]. split; [exact Hin|].
  exact (price_and_date_come_together float_literal store_1 store_4 _ _
           row_2 unique_ids_store_1 H Hin).
Defined.

Lemma strftime_dates_store_1 :
  Forall (fun r => strftime_date (Stations.price_date r)) (rows store_1).
Proof.
  repeat constructor. exists (mkDate 2024 1 1).
  split; [unfold calendar_range; simpl; lia|].
  split; [vm_compute; discriminate | reflexivity].
Defined.

Lemma stored_dates_come_from_strftime_witness :
  Forall (fun r => strftime_date (Stations.price_date r)) (rows store_1) /\
  update_database float_literal store_1 [ancient_station; station_3]
  = Ok (mkDatabase [ancient_row; row_3] 2, (1, 1, 0)%nat) /\
  Forall (fun r => strftime_date (Stations.price_date r))
         (rows (mkDatabase [ancient_row; row_3] 2)).
Proof.
  assert (H : update_database float_literal store_1 [ancient_station; station_3]
              = Ok (mkDatabase [ancient_row; row_3] 2, (1, 1, 0)%nat))
    by (vm_compute; reflexivity).
  split; [apply strftime_dates_store_1|]. split; [exact H|].
  exact (stored_dates_come_from_strftime float_literal store_1 _ _ _
           strftime_dates_store_1 H).
Defined.

Lemma price_date_grows_as_a_string_witness :
  unique_ids empty_store /\
  stored_date (ingest float_literal empty_store
                      [[station_1; station_2]; [bad_date_station]; [station_1]])
              (millionths 45100000, millionths 8200000)
  = Some "2024-01-02"%string.
Proof.
  split; [constructor|].
  assert (Hacc : accepted_in_runs float_literal (millionths 45100000, millionths 8200000) empty_store
                   [[station_1; station_2]; [bad_date_station]; [station_1]]
                 <> [])
    by (vm_compute; discriminate).
  rewrite (proj1 (proj2 (proj2 (proj2
             (price_date_grows_as_a_string float_literal empty_store
                [[station_1; station_2]; [bad_date_station]; [station_1]]
                (NoDup_nil Z))))
             (millionths 45100000, millionths 8200000) Hacc)).
  vm_compute. reflexivity.
Defined.

Lemma coordinates_are_rounded_to_nearest_witness :
  normalize float_literal station_3 = Ok (Some observation_3) /\
  float float_literal (latitude station_3) = Ok (Finite (4625 # 100)) /\
  float float_literal (longitude station_3) = Ok (Finite (-75 # 10)) /\
  exists zla zlo,
    obs_latitude observation_3 = Some (Stations.Millionths zla) /\
    obs_longitude observation_3 = Some (Stations.Millionths zlo) /\
    (inject_Z zla - (1 # 2) <= (4625 # 100) * (1000000 # 1)
     <= inject_Z zla + (1 # 2))%Q /\
    (inject_Z zlo - (1 # 2) <= (-75 # 10) * (1000000 # 1)
     <= inject_Z zlo + (1 # 2))%Q.
Proof.
  repeat (split; [vm_compute; reflexivity|]).
  destruct (coordinates_are_rounded_to_nearest float_literal station_3
              observation_3 (4625 # 100) (-75 # 10) eq_refl eq_refl eq_refl)
    as (zla & zlo & H1 & H2 & H3 & H4 & _).
  exists zla, zlo. repeat split; first [exact H1 | exact H2 | apply H3 | apply H4].
Defined.

Lemma feedback_adds_up_witness :
  AddToDatabase.main float_literal sample_json_load dir_1
                     (AddToDatabase.Json "[station_2, station_3]")
  = (dir_4, Done "Database updated from 2 entries (1 added, 1 updated, 0 skipped)."%string) /\
  ((AddToDatabase.open_database dir_1 = None /\
    "Database updated from 2 entries (1 added, 1 updated, 0 skipped)."%string
    = AddToDatabase.cannot_find) \/
   (AddToDatabase.open_database dir_1 <> None /\
    exists data n_added n_updated n_ignored,
      AddToDatabase.load_json sample_json_load
                              (AddToDatabase.Json "[station_2, station_3]")
      = Done data /\
      "Database updated from 2 entries (1 added, 1 updated, 0 skipped)."%string
      = AddToDatabase.feedback (List.length data) (n_added, n_updated, n_ignored) /\
      (n_added + n_updated + n_ignored)%nat = List.length data)).
Proof.
  assert (H : AddToDatabase.main float_literal sample_json_load dir_1
                (AddToDatabase.Json "[station_2, station_3]")
              = (dir_4, Done "Database updated from 2 entries (1 added, 1 updated, 0 skipped)."%string))
    by (vm_compute; reflexivity).
  split; [exact H|].
  exact (feedback_adds_up float_literal sample_json_load dir_1 dir_4 _ _ H).
Defined.

Lemma store_without_table_witness :
  stations_table (mkFile None None) = None /\
  sample_json_load "[low_price_station]" = Some [low_price_station] /\
  Forall (fun s => normalize float_literal s = Ok None) [low_price_station] /\
  AddToDatabase.main float_literal sample_json_load
                     (IsDir (IsFile (mkFile None None)))
                     (AddToDatabase.Json "[low_price_station]")
  = (IsDir (IsFile (mkFile None None)),
     Done (AddToDatabase.feedback 1 (0, 0, 1)%nat)).
Proof.
  assert (Hall : Forall (fun s => normalize float_literal s = Ok None)
                        [low_price_station])
    by (repeat constructor).
  split; [reflexivity|]. split; [reflexivity|]. split; [exact Hall|].
  exact (proj1 (store_without_table float_literal sample_json_load
                  (mkFile None None) "[low_price_station]" [low_price_station]
                  eq_refl eq_refl) Hall).
Defined.


Lemma one_bad_record_voids_the_batch_witness :
  In bad_date_station [station_1; bad_date_station; station_3] /\
  normalize float_literal bad_date_station = Raise ValueError /\
  (exists e', update_database float_literal empty_store
                              [station_1; bad_date_station; station_3]
              = Raise e') /\
  main float_literal empty_store [station_1; bad_date_station; station_3]
  = (empty_store, None).
Proof.
  assert (Hin : In bad_date_station [station_1; bad_date_station; station_3])
    by (simpl; auto).
  split; [exact Hin|]. split; [reflexivity|].
  exact (one_bad_record_voids_the_batch float_literal empty_store _
           bad_date_station ValueError Hin eq_refl).
Defined.

Lemma every_record_finds_its_station_witness :
  unique_ids store_1 /\
  update_database float_literal store_1 [station_2; station_3]
  = Ok (store_4, (1, 1, 0)%nat) /\
  In station_3 [station_2; station_3] /\
  normalize float_literal station_3 = Ok (Some observation_3) /\
  has_null (obs_coordinates observation_3) = false /\
  exists r,
    select_station store_4 (obs_latitude observation_3) (obs_longitude observation_3)
    = Some r /\
    In r (rows store_4) /\
    Stations.coordinates r = (obs_latitude observation_3, obs_longitude observation_3) /\
    date_le (obs_date observation_3) (Stations.price_date r).
Proof.
  assert (H : update_database float_literal store_1 [station_2; station_3]
              = Ok (store_4, (1, 1, 0)%nat)) by (vm_compute; reflexivity).
  assert (Hin : In station_3 [station_2; station_3]) by (simpl; auto).
  assert (Hn : normalize float_literal station_3 = Ok (Some observation_3))
    by (vm_compute; reflexivity).
  split; [apply unique_ids_store_1|]. split; [exact H|].
  split; [exact Hin|]. split; [exact Hn|]. split; [reflexivity|].
  exact (every_record_finds_its_station float_literal store_1 store_4 _ _
           station_3 observation_3 unique_ids_store_1 H Hin Hn eq_refl).
Defined.
